(** * ProcessKiller: holder discovery and eviction (vold, ProcessKiller.c)

    A shallow embedding of [ProcessKiller.c].  C strings are lists of
    bytes read up to the first NUL, [int] is a 32-bit two's complement
    integer, and every call the program makes into the kernel or into the
    logger is recorded, in order, in a trace of events. *)

From Stdlib Require Import ZArith List Ascii String Bool Lia.
From Stdlib Require DecimalString DecimalZ.
Import ListNotations.
Local Open Scope Z_scope.
Local Open Scope list_scope.

(** ** Characters, C strings and [int] *)

(** A [char*]: the bytes from the pointer on.  The C library reads them up
    to the first NUL; the end of the list counts as the terminator. *)
Definition cstring := list ascii.

Definition lit (s : string) : cstring := list_ascii_of_string s.
Arguments lit s%_string.

Definition NUL : ascii := Ascii.zero.
Definition slash : ascii := "/"%char.
Definition newline : ascii := "010"%char.

Definition code (c : ascii) : Z := Z.of_N (N_of_ascii c).

Definition INT_MAX : Z := 2147483647.

(** Conversion to [int], wrapping around. *)
Definition to_int (z : Z) : Z := (z + 2 ^ 31) mod 2 ^ 32 - 2 ^ 31.

(** [isdigit] in the C locale. *)
Definition isdigit (c : ascii) : bool := (48 <=? code c) && (code c <=? 57).

(** [s[i]] *)
Definition char_at (s : cstring) (i : Z) : ascii := nth (Z.to_nat i) s NUL.

Fixpoint strlen (s : cstring) : nat :=
  match s with
  | [] => O
  | c :: s' => if Ascii.eqb c NUL then O else S (strlen s')
  end.

(** The string a [char*] denotes: what [%s] prints, what [strcat] appends. *)
Fixpoint cstr (s : cstring) : cstring :=
  match s with
  | [] => []
  | c :: s' => if Ascii.eqb c NUL then [] else c :: cstr s'
  end.

Fixpoint strncmp (s1 s2 : cstring) (n : nat) : Z :=
  match n with
  | O => 0
  | S n' =>
      let c1 := hd NUL s1 in
      let c2 := hd NUL s2 in
      if negb (Ascii.eqb c1 c2) then code c1 - code c2
      else if Ascii.eqb c1 NUL then 0
      else strncmp (tl s1) (tl s2) n'
  end.

Fixpoint strcmp (s1 s2 : cstring) : Z :=
  match s1 with
  | [] => 0 - code (hd NUL s2)
  | c1 :: s1' =>
      let c2 := hd NUL s2 in
      if negb (Ascii.eqb c1 c2) then code c1 - code c2
      else if Ascii.eqb c1 NUL then 0
      else strcmp s1' (tl s2)
  end.

(** [strchr] returns the suffix starting at the first occurrence. *)
Fixpoint strchr (s : cstring) (c : ascii) : option cstring :=
  match s with
  | [] => if Ascii.eqb c NUL then Some [] else None
  | x :: s' =>
      if Ascii.eqb x c then Some s
      else if Ascii.eqb x NUL then None
      else strchr s' c
  end.

(** [%d] *)
Definition itoa (n : Z) : cstring :=
  lit (DecimalString.NilZero.string_of_int (Z.to_int n)).

(** ** PathMatchesMountPoint *)

Definition PathMatchesMountPoint (path mountPoint : cstring) : bool :=
  let length := to_int (Z.of_nat (strlen mountPoint)) in
  if (1 <? length) && (strncmp path mountPoint (Z.to_nat length) =? 0) then
    (* we need to do extra checking if mountPoint does not end in a '/' *)
    if Ascii.eqb (char_at mountPoint (length - 1)) slash then true
    else
      (* if mountPoint does not have a trailing slash, we need to make sure
         there is one in the path to avoid partial matches. *)
      Ascii.eqb (char_at path length) NUL || Ascii.eqb (char_at path length) slash
  else false.

(** The PathMatcher contract, rule by rule, on the strings the two
    pointers denote. *)
Fixpoint starts_with (candidate mountPoint : cstring) {struct mountPoint}
  : bool :=
  match mountPoint, candidate with
  | [], _ => true
  | _ :: _, [] => false
  | m :: mountPoint', c :: candidate' =>
      Ascii.eqb c m && starts_with candidate' mountPoint'
  end.

Definition ends_with_slash (mountPoint : cstring) : bool :=
  match rev mountPoint with
  | c :: _ => Ascii.eqb c slash
  | [] => false
  end.

Definition matches_spec (candidate mountPoint : cstring) : bool :=
  let L := List.length mountPoint in
  if (L <=? 1)%nat then false                               (* rule 1 *)
  else if negb (starts_with candidate mountPoint) then false (* rule 2 *)
  else if ends_with_slash mountPoint then true              (* rule 3 *)
  else match nth_error candidate L with                     (* rule 4 *)
       | None => true
       | Some c => Ascii.eqb c slash
       end.

(** ** The kernel, and the trace of a run *)

Definition PATH_MAX : Z := 4096.

(** <sys/stat.h>, <signal.h> *)
Definition S_IFMT : Z := 61440.   (* 0170000 *)
Definition S_IFLNK : Z := 40960.  (* 0120000 *)
Definition SIGHUP : Z := 1.
Definition SIGKILL : Z := 9.
Definition SIGTERM : Z := 15.

(** What [read] does on an open file. *)
Inductive file_read :=
| ReadFails                        (* read returns -1 *)
| ReadData (bytes : list ascii).   (* the bytes of the file *)

(** The kernel as seen through /proc.  Each call is answered on its own:
    a directory may list a name whose [lstat] fails (the entry vanished
    between enumeration and resolution), a pid may be listed whose files
    cannot be opened. *)
Record Kernel := {
  k_lstat : cstring -> option Z;               (* st_mode; None: lstat < 0 *)
  k_readlink : cstring -> option (list ascii); (* target; None: readlink < 0 *)
  k_opendir : cstring -> option (list cstring);(* d_name of each entry, in readdir order *)
  k_fopen : cstring -> option (list ascii);    (* content; None: fopen fails *)
  k_open : cstring -> option file_read         (* None: open < 0 *)
}.

Inductive priority := LOG_WARN | LOG_ERROR.

Inductive arg :=
| AStr (s : cstring)
| AInt (n : Z).

Inductive event :=
| EvLstat (path : cstring)
| EvReadlink (path : cstring)
| EvOpendir (path : cstring)
| EvReaddir (dir : cstring)
| EvClosedir (dir : cstring)
| EvFopen (path : cstring)
| EvFgets (file : cstring)
| EvFclose (file : cstring)
| EvOpen (path : cstring)
| EvRead (path : cstring)
| EvClose (path : cstring)
| EvLog (prio : priority) (fmt : string) (args : list arg)
| EvKill (pid sig : Z)
| EvStoreOutside (index : Z).      (* a store outside the bounds of its array *)

(** A computation yields its value and the events it caused, in order. *)
Definition IO (A : Type) : Type := (A * list event)%type.

Definition ret {A} (a : A) : IO A := (a, []).

Definition bind {A B} (m : IO A) (f : A -> IO B) : IO B :=
  let (a, t1) := m in
  let (b, t2) := f a in
  (b, t1 ++ t2).

Definition emit (e : event) : IO unit := (tt, [e]).

Notation "x <- m ;; k" := (bind m (fun x => k))
  (at level 61, m at next level, right associativity).
Notation "' pat <- m ;; k" := (bind m (fun x => match x with pat => k end))
  (at level 61, pat pattern, m at next level, right associativity).
Notation "m ;; k" := (bind m (fun _ => k))
  (at level 61, right associativity).

(** [a || b] on calls: [b] is run only when [a] returned 0. *)
Definition orelse (a b : IO bool) : IO bool :=
  x <- a ;; if x then ret true else b.
Notation "a ||| b" := (orelse a b) (at level 50, left associativity).

(** ** Arrays of char *)

(** Bytes written from the start of an array. *)
Definition overwrite (a bytes : list ascii) : list ascii :=
  bytes ++ skipn (List.length bytes) a.

(** [a[i] = c].  A store outside the array is recorded and leaves the
    array as it was. *)
Definition store (a : list ascii) (i : Z) (c : ascii) : IO (list ascii) :=
  if (0 <=? i) && (i <? Z.of_nat (List.length a)) then
    ret (firstn (Z.to_nat i) a ++ c :: skipn (S (Z.to_nat i)) a)
  else
    emit (EvStoreOutside i) ;; ret a.

Definition strcpy (dst src : cstring) : list ascii :=
  overwrite dst (cstr src ++ [NUL]).

(** [fgets(buffer, size, file)] takes at most [size - 1] bytes and stops
    after a newline. *)
Fixpoint read_line (n : nat) (file : list ascii) : list ascii * list ascii :=
  match n, file with
  | S n', c :: file' =>
      if Ascii.eqb c newline then ([c], file')
      else let (line, rest) := read_line n' file' in (c :: line, rest)
  | _, _ => ([], file)
  end.

Definition read_fgets (size : Z) (file : list ascii)
  : option (list ascii * list ascii) :=
  match file with
  | [] => None
  | _ :: _ => Some (read_line (Z.to_nat (size - 1)) file)
  end.

Section ProcessKiller.

Variable K : Kernel.

(** What an uninitialised local array holds. *)
Variable stack : list ascii.

Definition char_array (n : Z) : list ascii :=
  firstn (Z.to_nat n) (stack ++ repeat NUL (Z.to_nat n)).

(** *** System calls *)

Definition lstat (path : cstring) : IO (option Z) :=
  emit (EvLstat (cstr path)) ;; ret (k_lstat K (cstr path)).

Definition readlink (path : cstring) (buf : list ascii) (bufsiz : Z)
  : IO (Z * list ascii) :=
  emit (EvReadlink (cstr path)) ;;
  ret match k_readlink K (cstr path) with
      | None => (-1, buf)
      | Some target =>
          let bytes := firstn (Z.to_nat bufsiz) target in
          (Z.of_nat (List.length bytes), overwrite buf bytes)
      end.

Definition opendir (path : cstring) : IO (option (list cstring)) :=
  emit (EvOpendir (cstr path)) ;; ret (k_opendir K (cstr path)).

Definition fopen (path : cstring) : IO (option (list ascii)) :=
  emit (EvFopen (cstr path)) ;; ret (k_fopen K (cstr path)).

Definition fgets (name : cstring) (size : Z) (file : list ascii)
  : IO (option (list ascii * list ascii)) :=
  emit (EvFgets name) ;; ret (read_fgets size file).

Definition open (path : cstring) : IO (option file_read) :=
  emit (EvOpen (cstr path)) ;; ret (k_open K (cstr path)).

Definition read (name : cstring) (fd : file_read) (buf : list ascii) (count : Z)
  : IO (Z * list ascii) :=
  emit (EvRead name) ;;
  ret match fd with
      | ReadFails => (-1, buf)
      | ReadData data =>
          let bytes := firstn (Z.to_nat count) data in
          (Z.of_nat (List.length bytes), overwrite buf bytes)
      end.

Definition kill (pid sig : Z) : IO unit := emit (EvKill pid sig).

(** *** ReadSymLink *)

Definition ReadSymLink (path : cstring) (link : list ascii)
  : IO (bool * list ascii) :=
  s <- lstat path ;;
  match s with
  | None => ret (false, link)
  | Some st_mode =>
      if negb (Z.land st_mode S_IFMT =? S_IFLNK) then ret (false, link)
      else
        (* we have a symlink *)
        ' (length, link) <- readlink path link (PATH_MAX - 1) ;;
        if length <=? 0 then ret (false, link)
        else
          link <- store link length NUL ;;
          ret (true, link)
  end.

(** *** GetProcessName *)

Definition GetProcessName (pid : Z) (buffer : list ascii) : IO (list ascii) :=
  let buffer := strcpy buffer (lit "/proc/" ++ itoa pid ++ lit "/cmdline") in
  let path := cstr buffer in
  fd <- open buffer ;;
  match fd with
  | None => ret (strcpy buffer (lit "???"))
  | Some fd =>
      ' (length, buffer) <- read path fd buffer (PATH_MAX - 1) ;;
      buffer <- store buffer length NUL ;;
      emit (EvClose path) ;;
      ret buffer
  end.

(** *** CheckFileDescriptorSymLinks *)

(** [dir] is what [readdir] has still to return; [parent] is [path] up to
    and including the trailing '/'. *)
Fixpoint fd_loop (pid : Z) (mountPoint : cstring) (dirname parent : cstring)
    (dir : list cstring) (link : list ascii) (fileOpen : bool) : IO bool :=
  emit (EvReaddir dirname) ;;
  match dir with
  | [] => ret fileOpen
  | d_name :: dir' =>
      if fileOpen then ret fileOpen
      else if (strcmp d_name (lit ".") =? 0) || (strcmp d_name (lit "..") =? 0)
      then fd_loop pid mountPoint dirname parent dir' link fileOpen
      else
        (* append the file name, after truncating to parent directory *)
        let path := parent ++ cstr d_name in
        ' (islink, link) <- ReadSymLink path link ;;
        if islink && PathMatchesMountPoint link mountPoint then
          name <- GetProcessName pid (char_array PATH_MAX) ;;
          emit (EvLog LOG_ERROR "Process %s (%d) has open file %s"
                  [AStr (cstr name); AInt pid; AStr (cstr link)]) ;;
          fd_loop pid mountPoint dirname parent dir' link true
        else
          fd_loop pid mountPoint dirname parent dir' link fileOpen
  end.

Definition CheckFileDescriptorSymLinks (pid : Z) (mountPoint : cstring)
  : IO bool :=
  (* compute path to process's directory of open files *)
  let path := lit "/proc/" ++ itoa pid ++ lit "/fd" in
  dir <- opendir path ;;
  match dir with
  | None => ret false
  | Some dir =>
      (* append a trailing '/' *)
      let parent := path ++ [slash] in
      fileOpen <- fd_loop pid mountPoint path parent dir
                    (char_array PATH_MAX) false ;;
      emit (EvClosedir path) ;;
      ret fileOpen
  end.

(** *** CheckFileMaps *)

(** [file] is what remains to be read.  Every [fgets] that returns a line
    takes at least one byte, so [fuel] above the length of [file] is never
    used up. *)
Fixpoint maps_loop (fuel : nat) (pid : Z) (mountPoint : cstring)
    (filename : cstring) (file : list ascii) (mapOpen : bool) : IO bool :=
  match fuel with
  | O => ret mapOpen
  | S fuel' =>
      if mapOpen then ret mapOpen
      else
        r <- fgets filename (PATH_MAX + 100) file ;;
        match r with
        | None => ret mapOpen
        | Some (buffer, file') =>
            (* skip to the path *)
            match strchr buffer slash with
            | Some path =>
                if PathMatchesMountPoint path mountPoint then
                  name <- GetProcessName pid (char_array PATH_MAX) ;;
                  emit (EvLog LOG_ERROR "process %s (%d) has open file map for %s"
                          [AStr (cstr name); AInt pid; AStr (cstr path)]) ;;
                  maps_loop fuel' pid mountPoint filename file' true
                else maps_loop fuel' pid mountPoint filename file' mapOpen
            | None => maps_loop fuel' pid mountPoint filename file' mapOpen
            end
        end
  end.

Definition CheckFileMaps (pid : Z) (mountPoint : cstring) : IO bool :=
  let buffer := lit "/proc/" ++ itoa pid ++ lit "/maps" in
  file <- fopen buffer ;;
  match file with
  | None => ret false
  | Some file =>
      mapOpen <- maps_loop (2 + List.length file) pid mountPoint buffer file false ;;
      emit (EvFclose buffer) ;;
      ret mapOpen
  end.

(** *** CheckSymLink *)

Definition CheckSymLink (pid : Z) (mountPoint name message : cstring)
  : IO bool :=
  let path := lit "/proc/" ++ itoa pid ++ [slash] ++ cstr name in
  ' (islink, link) <- ReadSymLink path (char_array PATH_MAX) ;;
  if islink && PathMatchesMountPoint link mountPoint then
    name <- GetProcessName pid (char_array PATH_MAX) ;;
    emit (EvLog LOG_WARN "Process %s (%d) has %s in %s"
            [AStr (cstr name); AInt pid; AStr (cstr message);
             AStr (cstr mountPoint)]) ;;
    ret true
  else
    ret false.

(** *** get_pid *)

Fixpoint get_pid_loop (s : cstring) (result : Z) : Z :=
  match s with
  | [] => result
  | c :: s' =>
      if Ascii.eqb c NUL then result
      else if negb (isdigit c) then -1
      else get_pid_loop s' (to_int (10 * result + (code c - code "0"%char)))
  end.

Definition get_pid (s : cstring) : Z := get_pid_loop s 0.

(** *** KillProcessesWithOpenFiles *)

(** The five probes of the condition, in the order of the source. *)
Definition holds (pid : Z) (mountPoint : cstring) : IO bool :=
  CheckFileDescriptorSymLinks pid mountPoint                              (* check for open files *)
  ||| CheckFileMaps pid mountPoint                                        (* check for mmap() *)
  ||| CheckSymLink pid mountPoint (lit "cwd") (lit "working directory")   (* check working directory *)
  ||| CheckSymLink pid mountPoint (lit "root") (lit "chroot")             (* check for chroot() *)
  ||| CheckSymLink pid mountPoint (lit "exe") (lit "executable path").    (* check executable path *)

Definition act (action pid : Z) : IO unit :=
  if action =? 1 then
    emit (EvLog LOG_WARN "Sending SIGHUP to process %d" [AInt pid]) ;;
    kill pid SIGTERM
  else if action =? 2 then
    emit (EvLog LOG_ERROR "Sending SIGKILL to process %d" [AInt pid]) ;;
    kill pid SIGKILL
  else ret tt.

(** The body of the loop for one directory entry. *)
Definition scan_entry (mountPoint : cstring) (action : Z) (d_name : cstring)
  : IO unit :=
  (* does the name look like a process ID? *)
  let pid := get_pid d_name in
  if pid =? -1 then ret tt
  else
    h <- holds pid mountPoint ;;
    if h then act action pid else ret tt.

Fixpoint proc_loop (mountPoint : cstring) (action : Z) (dir : list cstring)
  : IO unit :=
  emit (EvReaddir (lit "/proc")) ;;
  match dir with
  | [] => ret tt
  | d_name :: dir' =>
      scan_entry mountPoint action d_name ;;
      proc_loop mountPoint action dir'
  end.

Definition KillProcessesWithOpenFiles (mountPoint : cstring) (action : Z)
  : IO unit :=
  dir <- opendir (lit "/proc") ;;
  match dir with
  | None => ret tt
  | Some dir =>
      proc_loop mountPoint action dir ;;
      emit (EvClosedir (lit "/proc"))
  end.

End ProcessKiller.

(** ** Vocabulary of the specification *)

(** The files of a process that the program reads. *)
Definition cmdline (pid : Z) : cstring :=
  lit "/proc/" ++ itoa pid ++ lit "/cmdline".

Definition fd_dir (pid : Z) : cstring :=
  lit "/proc/" ++ itoa pid ++ lit "/fd".

Definition maps (pid : Z) : cstring :=
  lit "/proc/" ++ itoa pid ++ lit "/maps".

Definition proc_link (pid : Z) (name : cstring) : cstring :=
  lit "/proc/" ++ itoa pid ++ [slash] ++ cstr name.

(** The signals a run delivered: (pid, signal), in order. *)
Definition signal_of (e : event) : list (Z * Z) :=
  match e with
  | EvKill pid sig => [(pid, sig)]
  | _ => []
  end.

Definition signals (t : list event) : list (Z * Z) := flat_map signal_of t.

(** The five probes A to E of one process, in the order of the contract. *)
Definition probes (K : Kernel) (stack : list ascii) (pid : Z)
    (mountPoint : cstring) : list (IO bool) :=
  [ CheckFileDescriptorSymLinks K stack pid mountPoint;
    CheckFileMaps K stack pid mountPoint;
    CheckSymLink K stack pid mountPoint (lit "cwd") (lit "working directory");
    CheckSymLink K stack pid mountPoint (lit "root") (lit "chroot");
    CheckSymLink K stack pid mountPoint (lit "exe") (lit "executable path") ].

(** The probes that are run: those up to and including the first match. *)
Fixpoint through_first_match (ps : list (IO bool)) : list (IO bool) :=
  match ps with
  | [] => []
  | p :: ps' => if fst p then [p] else p :: through_first_match ps'
  end.

(** The pids among the entries of /proc that are found holding. *)
Definition holders (K : Kernel) (stack : list ascii) (mountPoint : cstring)
    (dir : list cstring) : list Z :=
  filter (fun pid => negb (pid =? -1) && fst (holds K stack pid mountPoint))
         (map get_pid dir).

(** What the probes alone do for one entry of /proc, and for all of them. *)
Definition probing (K : Kernel) (stack : list ascii) (mountPoint : cstring)
    (d_name : cstring) : list event :=
  if get_pid d_name =? -1 then []
  else snd (holds K stack (get_pid d_name) mountPoint).

Definition scan_trace (K : Kernel) (stack : list ascii) (mountPoint : cstring)
  : list event :=
  EvOpendir (lit "/proc")
  :: match k_opendir K (lit "/proc") with
     | None => []
     | Some dir =>
         flat_map (fun d_name =>
                     EvReaddir (lit "/proc") :: probing K stack mountPoint d_name)
                  dir
         ++ [EvReaddir (lit "/proc"); EvClosedir (lit "/proc")]
     end.

(** The number a string of digits writes. *)
Definition digit_value (c : ascii) : Z := code c - code "0"%char.

Definition decimal (s : cstring) : Z :=
  fold_left (fun acc c => 10 * acc + digit_value c) s 0.

(** The lines that successive calls of [fgets] on the maps file return. *)
Fixpoint lines_read (fuel : nat) (size : Z) (file : list ascii)
  : list (list ascii) :=
  match fuel with
  | O => []
  | S fuel' =>
      match read_fgets size file with
      | None => []
      | Some (buffer, file') => buffer :: lines_read fuel' size file'
      end
  end.

Definition fgets_lines (file : list ascii) : list (list ascii) :=
  lines_read (List.length file) (PATH_MAX + 100) file.

(** What Probe B decides on one line. *)
Definition line_matches (mountPoint : cstring) (buffer : list ascii) : bool :=
  match strchr buffer slash with
  | Some path => PathMatchesMountPoint path mountPoint
  | None => false
  end.

(** ** Kernels for the examples *)

Definition path_is (path : cstring) (s : string) : bool :=
  String.eqb (string_of_list_ascii path) s.

(** Nothing exists. *)
Definition absent : Kernel :=
  {| k_lstat := fun _ => None;
     k_readlink := fun _ => None;
     k_opendir := fun _ => None;
     k_fopen := fun _ => None;
     k_open := fun _ => None |}.

(** Process 1 has one mapping, whose pathname is the mount point itself. *)
Definition maps_line : list ascii :=
  lit "00400000-0040b000 r-xp 00000000 08:01 12 /mnt/vol" ++ [newline].

Definition mapped_mount_point : Kernel :=
  {| k_lstat := fun _ => None;
     k_readlink := fun _ => None;
     k_opendir := fun _ => None;
     k_fopen := fun path =>
       if path_is path "/proc/1/maps" then Some maps_line else None;
     k_open := fun _ => None |}.

(** /proc lists a process that is gone by the time it is probed. *)
Definition vanishing : Kernel :=
  {| k_lstat := fun _ => None;
     k_readlink := fun _ => None;
     k_opendir := fun path =>
       if path_is path "/proc" then Some [lit "1"; lit "self"] else None;
     k_fopen := fun _ => None;
     k_open := fun _ => None |}.

(** Two kernels that answer alike except, possibly, on the command
    lines (the only files the program opens with [open]). *)
Definition same_but_cmdline (K1 K2 : Kernel) : Prop :=
  (forall path, k_lstat K1 path = k_lstat K2 path)
  /\ (forall path, k_readlink K1 path = k_readlink K2 path)
  /\ (forall path, k_opendir K1 path = k_opendir K2 path)
  /\ (forall path, k_fopen K1 path = k_fopen K2 path).

(** The events of the name lookup and of the log. *)
Definition label_event (e : event) : bool :=
  match e with
  | EvOpen _ | EvRead _ | EvClose _ | EvStoreOutside _ | EvLog _ _ _ => true
  | _ => false
  end.

(** A run without them: the calls that decide, and the signals. *)
Definition decisions (t : list event) : list event :=
  filter (fun e => negb (label_event e)) t.

(** Two runs that return the same value after the same deciding calls. *)
Definition agree {A} (m1 m2 : IO A) : Prop :=
  fst m1 = fst m2 /\ decisions (snd m1) = decisions (snd m2).

(** No name was looked up, nothing was logged. *)
Definition unlabelled (t : list event) : bool :=
  forallb (fun e => negb (label_event e)) t.

(** Process 1 has its working directory below /mnt/vol; [cmdline_read] is
    what opening its command line gives. *)
Definition cwd_inside (cmdline_read : option file_read) : Kernel :=
  {| k_lstat := fun path =>
       if path_is path "/proc/1/cwd" then Some 41471 (* 0120777 *) else None;
     k_readlink := fun path =>
       if path_is path "/proc/1/cwd" then Some (lit "/mnt/vol/sub") else None;
     k_opendir := fun path =>
       if path_is path "/proc" then Some [lit "1"] else None;
     k_fopen := fun _ => None;
     k_open := fun _ => cmdline_read |}.

(** Process 1 has /dev/null open as descriptor 0 and /mnt/vol/data.bin as
    descriptor 3. *)
Definition fd_inside : Kernel :=
  {| k_lstat := fun path =>
       if path_is path "/proc/1/fd/0" || path_is path "/proc/1/fd/3"
       then Some 41471 else None;
     k_readlink := fun path =>
       if path_is path "/proc/1/fd/0" then Some (lit "/dev/null")
       else if path_is path "/proc/1/fd/3" then Some (lit "/mnt/vol/data.bin")
       else None;
     k_opendir := fun path =>
       if path_is path "/proc"
       then Some [lit "."; lit ".."; lit "1"; lit "cpuinfo"]
       else if path_is path "/proc/1/fd"
       then Some [lit "."; lit ".."; lit "0"; lit "3"; lit "4"]
       else None;
     k_fopen := fun _ => None;
     k_open := fun _ => Some (ReadData (lit "/system/bin/app" ++ [NUL])) |}.

(** Process 1 has a heap, the C library, and a library below /mnt/vol. *)
Definition lib_mapped : Kernel :=
  {| k_lstat := fun _ => None;
     k_readlink := fun _ => None;
     k_opendir := fun path =>
       if path_is path "/proc" then Some [lit "1"] else None;
     k_fopen := fun path =>
       if path_is path "/proc/1/maps"
       then Some (lit "0001f000-00021000 rw-p 00000000 00:00 0          [heap]"
                  ++ [newline]
                  ++ lit "afd00000-afd40000 r-xp 00000000 1f:03 479  /system/lib/libc.so"
                  ++ [newline]
                  ++ lit "b0001000-b0009000 r-xp 00000000 b3:01 12   /mnt/vol/lib.so"
                  ++ [newline])
       else None;
     k_open := fun _ => Some (ReadData (lit "app_process" ++ [NUL])) |}.

(** ** What the kernel's answers amount to *)

(** The target of a symbolic link as [ReadSymLink] delivers it: at most
    [PATH_MAX - 1] bytes, read as a string. *)
Definition link_target (K : Kernel) (path : cstring) : option cstring :=
  match k_lstat K path with
  | None => None
  | Some st_mode =>
      if Z.land st_mode S_IFMT =? S_IFLNK then
        match k_readlink K path with
        | Some (c :: target) =>
            Some (cstr (firstn (Z.to_nat (PATH_MAX - 1)) (c :: target)))
        | _ => None
        end
      else None
  end.

(** The calls [ReadSymLink] makes. *)
Definition link_calls (K : Kernel) (path : cstring) : list event :=
  match k_lstat K path with
  | None => [EvLstat path]
  | Some st_mode =>
      if Z.land st_mode S_IFMT =? S_IFLNK
      then [EvLstat path; EvReadlink path]
      else [EvLstat path]
  end.

(** The name [GetProcessName] leaves in its buffer, and the events of
    the lookup. *)
Definition process_name (K : Kernel) (pid : Z) : cstring :=
  match k_open K (cmdline pid) with
  | None => lit "???"
  | Some ReadFails => cmdline pid
  | Some (ReadData data) => cstr (firstn (Z.to_nat (PATH_MAX - 1)) data)
  end.

Definition name_calls (K : Kernel) (pid : Z) : list event :=
  match k_open K (cmdline pid) with
  | None => [EvOpen (cmdline pid)]
  | Some ReadFails =>
      [EvOpen (cmdline pid); EvRead (cmdline pid); EvStoreOutside (-1);
       EvClose (cmdline pid)]
  | Some (ReadData _) =>
      [EvOpen (cmdline pid); EvRead (cmdline pid); EvClose (cmdline pid)]
  end.

(** Does the link at [path] point into the mount point? *)
Definition link_matches (K : Kernel) (mountPoint path : cstring) : bool :=
  match link_target K path with
  | Some target => PathMatchesMountPoint target mountPoint
  | None => false
  end.

(** The test that skips the entries "." and "..". *)
Definition is_dot (d_name : cstring) : bool :=
  (strcmp d_name (lit ".") =? 0) || (strcmp d_name (lit "..") =? 0).

(** Does the descriptor [d_name] of [pid] point into the mount point? *)
Definition fd_matches (K : Kernel) (pid : Z) (mountPoint d_name : cstring)
  : bool :=
  negb (is_dot d_name)
  && link_matches K mountPoint (fd_dir pid ++ [slash] ++ cstr d_name).

(** The elements of a list up to and including the first that satisfies
    [f]. *)
Fixpoint take_through {A} (f : A -> bool) (l : list A) : list A :=
  match l with
  | [] => []
  | x :: l' => if f x then [x] else x :: take_through f l'
  end.

(** The paths a run resolved with [lstat], in order. *)
Definition resolved (t : list event) : list cstring :=
  flat_map (fun e => match e with EvLstat path => [path] | _ => [] end) t.

(** The priorities of the log records of a run, in order. *)
Definition log_of (e : event) : list priority :=
  match e with
  | EvLog prio _ _ => [prio]
  | _ => []
  end.

Definition log_priorities (t : list event) : list priority :=
  flat_map log_of t.

(** A holder, by what the kernel shows of it: a descriptor, a mapping, the
    working directory, the root or the executable within the mount
    point. *)
Definition holder (K : Kernel) (pid : Z) (mountPoint : cstring) : bool :=
  match k_opendir K (fd_dir pid) with
  | Some dir => existsb (fd_matches K pid mountPoint) dir
  | None => false
  end
  || match k_fopen K (maps pid) with
     | Some file => existsb (line_matches mountPoint) (fgets_lines file)
     | None => false
     end
  || link_matches K mountPoint (proc_link pid (lit "cwd"))
  || link_matches K mountPoint (proc_link pid (lit "root"))
  || link_matches K mountPoint (proc_link pid (lit "exe")).

(** The indices of the stores a run made outside their array, in order. *)
Definition store_of (e : event) : list Z :=
  match e with
  | EvStoreOutside i => [i]
  | _ => []
  end.

Definition stores_outside (t : list event) : list Z := flat_map store_of t.

(** The store that goes wrong when the name of [pid] is looked up: the
    terminator at index -1, when the command line opens and cannot be
    read. *)
Definition failed_read_store (K : Kernel) (pid : Z) : list Z :=
  match k_open K (cmdline pid) with
  | Some ReadFails => [-1]
  | _ => []
  end.

(** ** Handles *)

(** What the program holds open: a directory stream, a stdio stream, a
    file descriptor, each named by the path it was opened from. *)
Inductive handle :=
| HDir (path : cstring)
| HFile (path : cstring)
| HFd (path : cstring).

Definition same_path (p q : cstring) : bool :=
  if list_eq_dec ascii_dec p q then true else false.

Definition handle_eqb (h1 h2 : handle) : bool :=
  match h1, h2 with
  | HDir p, HDir q | HFile p, HFile q | HFd p, HFd q => same_path p q
  | _, _ => false
  end.

(** Is [h] the handle opened last and not yet closed? *)
Definition on_top (h : handle) (opened : list handle) : bool :=
  match opened with
  | h' :: _ => handle_eqb h h'
  | [] => false
  end.

(** Follows a run with the handles opened so far, the latest first.  An
    open that succeeds adds its handle; reading from a handle, or closing
    it, is accepted only on the handle opened last.  The result is what is
    left open, or [None] for a run that uses or closes anything else. *)
Fixpoint handles (K : Kernel) (t : list event) (opened : list handle)
  : option (list handle) :=
  match t with
  | [] => Some opened
  | e :: t' =>
      match e with
      | EvOpendir path =>
          handles K t' match k_opendir K path with
                       | Some _ => HDir path :: opened
                       | None => opened
                       end
      | EvReaddir path =>
          if on_top (HDir path) opened then handles K t' opened else None
      | EvClosedir path =>
          if on_top (HDir path) opened then handles K t' (tl opened) else None
      | EvFopen path =>
          handles K t' match k_fopen K path with
                       | Some _ => HFile path :: opened
                       | None => opened
                       end
      | EvFgets path =>
          if on_top (HFile path) opened then handles K t' opened else None
      | EvFclose path =>
          if on_top (HFile path) opened then handles K t' (tl opened) else None
      | EvOpen path =>
          handles K t' match k_open K path with
                       | Some _ => HFd path :: opened
                       | None => opened
                       end
      | EvRead path =>
          if on_top (HFd path) opened then handles K t' opened else None
      | EvClose path =>
          if on_top (HFd path) opened then handles K t' (tl opened) else None
      | _ => handles K t' opened
      end
  end.

(** A part of a run that leaves the handles as it found them. *)
Definition tidy (K : Kernel) (t : list event) : Prop :=
  forall opened, handles K t opened = Some opened.

(** How many times a run called [fgets]. *)
Definition is_fgets (e : event) : bool :=
  match e with
  | EvFgets _ => true
  | _ => false
  end.

Definition fgets_calls (t : list event) : nat :=
  List.length (filter is_fgets t).

(** * Facts about the C library model *)

#[local] Arguments Ascii.eqb : simpl never.
#[local] Arguments code : simpl never.

Lemma to_int_small z : - 2 ^ 31 <= z < 2 ^ 31 -> to_int z = z.
Proof.
  intros H. unfold to_int. rewrite Z.mod_small; lia.
Qed.

Lemma code_inj c1 c2 : code c1 = code c2 -> c1 = c2.
Proof.
  unfold code. intros H. apply N2Z.inj in H.
  rewrite <- (ascii_N_embedding c1), <- (ascii_N_embedding c2). now rewrite H.
Qed.

Lemma code_diff c1 c2 : Ascii.eqb c1 c2 = false -> code c1 - code c2 <> 0.
Proof.
  intros H E. apply Ascii.eqb_neq in H. apply H, code_inj. lia.
Qed.

Lemma length_cstr s : List.length (cstr s) = strlen s.
Proof.
  induction s as [|c s IH]; simpl; [reflexivity|].
  destruct (Ascii.eqb c NUL); simpl; congruence.
Qed.

Lemma cstr_no_nul s c : In c (cstr s) -> Ascii.eqb c NUL = false.
Proof.
  induction s as [|x s IH]; simpl; [tauto|].
  destruct (Ascii.eqb x NUL) eqn:E; simpl; [tauto|].
  intros [<-|H]; auto.
Qed.

Lemma cstr_fixed s : (forall c, In c s -> Ascii.eqb c NUL = false) -> cstr s = s.
Proof.
  induction s as [|x s IH]; simpl; intros H; [reflexivity|].
  rewrite (H x) by auto. f_equal. apply IH. auto.
Qed.

Lemma cstr_idem s : cstr (cstr s) = cstr s.
Proof. apply cstr_fixed, cstr_no_nul. Qed.

Lemma cstr_app_nul s r : cstr (s ++ NUL :: r) = cstr s.
Proof.
  induction s as [|x s IH]; simpl; [reflexivity|].
  destruct (Ascii.eqb x NUL); congruence.
Qed.

Lemma cstr_app s1 s2 :
  (forall c, In c s1 -> Ascii.eqb c NUL = false) ->
  cstr (s1 ++ s2) = s1 ++ cstr s2.
Proof.
  induction s1 as [|x s IH]; simpl; intros H; [reflexivity|].
  rewrite (H x) by auto. f_equal. apply IH. auto.
Qed.

Lemma strlen_le s : (strlen s <= List.length s)%nat.
Proof.
  induction s as [|c s IH]; simpl; [lia|]. destruct (Ascii.eqb c NUL); simpl; lia.
Qed.

Lemma cstr_app_nul_strlen s r : strlen (s ++ NUL :: r) = strlen s.
Proof. now rewrite <- !length_cstr, cstr_app_nul. Qed.

Lemma nth_strlen s : nth (strlen s) s NUL = NUL.
Proof.
  induction s as [|c s IH]; simpl; [reflexivity|].
  destruct (Ascii.eqb c NUL) eqn:E; simpl; [now apply Ascii.eqb_eq in E | exact IH].
Qed.

Lemma nth_cstr s i : (i < strlen s)%nat -> nth i s NUL = nth i (cstr s) NUL.
Proof.
  revert i. induction s as [|c s IH]; simpl; intros i H; [lia|].
  destruct (Ascii.eqb c NUL); simpl in *; [lia|].
  destruct i; [reflexivity|]. apply IH. lia.
Qed.

Lemma strncmp_starts_with path mountPoint :
  (strncmp path mountPoint (strlen mountPoint) =? 0)
  = starts_with (cstr path) (cstr mountPoint).
Proof.
  revert path. induction mountPoint as [|m mp IH]; intros path; simpl.
  - reflexivity.
  - destruct (Ascii.eqb m NUL) eqn:Em; simpl; [reflexivity|].
    destruct path as [|c p]; simpl.
    + rewrite Ascii.eqb_sym in Em. rewrite Em. simpl.
      apply Z.eqb_neq. exact (code_diff NUL m Em).
    + destruct (Ascii.eqb c m) eqn:Ec; simpl.
      * apply Ascii.eqb_eq in Ec. subst c. rewrite Em. simpl.
        rewrite Ascii.eqb_refl. simpl. apply IH.
      * destruct (Ascii.eqb c NUL); simpl; [|rewrite Ec];
          apply Z.eqb_neq, code_diff; assumption.
Qed.

Lemma starts_with_length c m :
  starts_with c m = true -> (List.length m <= List.length c)%nat.
Proof.
  revert c. induction m as [|x m IH]; intros [|y c]; simpl; try lia; try discriminate.
  intros H. apply andb_prop in H. destruct H as [_ H]. apply IH in H. lia.
Qed.

Lemma starts_with_app m r : starts_with (m ++ r) m = true.
Proof.
  induction m as [|x m IH]; [reflexivity|].
  cbn [app starts_with]. now rewrite Ascii.eqb_refl, IH.
Qed.

Lemma ends_with_slash_nth l :
  l <> [] -> ends_with_slash l = Ascii.eqb (nth (List.length l - 1) l NUL) slash.
Proof.
  intros H. unfold ends_with_slash.
  assert (L : (0 < List.length l)%nat) by (destruct l; simpl; [congruence | lia]).
  pose proof (rev_nth l NUL L) as N. rewrite Nat.sub_1_r in *.
  rewrite <- N. destruct (rev l) as [|c r] eqn:E; [|reflexivity].
  apply (f_equal (@List.length _)) in E. rewrite length_rev in E. simpl in E. lia.
Qed.

Lemma strchr_skip pre s :
  (forall c, In c pre -> Ascii.eqb c slash = false /\ Ascii.eqb c NUL = false) ->
  strchr (pre ++ s) slash = strchr s slash.
Proof.
  induction pre as [|x pre IH]; intros H; [reflexivity|].
  cbn [app strchr]. destruct (H x (or_introl eq_refl)) as [H1 H2].
  rewrite H1, H2. apply IH. intros c Hc. apply H. now right.
Qed.

Lemma strchr_first line path :
  strchr line slash = Some path ->
  exists pre,
    line = pre ++ path
    /\ hd NUL path = slash
    /\ forall c, In c pre -> Ascii.eqb c slash = false.
Proof.
  induction line as [|x line IH]; cbn [strchr].
  - change (Ascii.eqb slash NUL) with false. discriminate.
  - destruct (Ascii.eqb x slash) eqn:Ex.
    + intros [= <-]. exists []. apply Ascii.eqb_eq in Ex. subst x.
      repeat split. intros c [].
    + destruct (Ascii.eqb x NUL); [discriminate|].
      intros H. destruct (IH H) as (pre & -> & Hh & Hp).
      exists (x :: pre). repeat split; [assumption|].
      intros c [<-|Hc]; auto.
Qed.

Lemma uint_no_nul d c :
  In c (lit (DecimalString.NilEmpty.string_of_uint d)) -> Ascii.eqb c NUL = false.
Proof.
  unfold lit. induction d; simpl; try tauto; (intros [<-|H]; [reflexivity | auto]).
Qed.

Lemma itoa_no_nul n c : In c (itoa n) -> Ascii.eqb c NUL = false.
Proof.
  unfold itoa. destruct (Z.to_int n) as [d|d]; simpl.
  - destruct d; try apply uint_no_nul. simpl. intros [<-|[]]. reflexivity.
  - unfold lit. simpl. intros [<-|H]; [reflexivity|].
    destruct d; try (revert H; apply uint_no_nul).
    simpl in H. destruct H as [<-|[]]. reflexivity.
Qed.

(** The paths under /proc that the program builds denote themselves. *)
Lemma cstr_proc_path pid name :
  cstr (lit "/proc/" ++ itoa pid ++ name) = lit "/proc/" ++ itoa pid ++ cstr name.
Proof.
  rewrite cstr_app.
  - f_equal. apply cstr_app, itoa_no_nul.
  - intros c H. vm_compute in H. decompose [or] H; subst; try reflexivity; tauto.
Qed.

Lemma cstr_cmdline pid : cstr (cmdline pid) = cmdline pid.
Proof. unfold cmdline. now rewrite cstr_proc_path. Qed.

Lemma cstr_fd_dir pid : cstr (fd_dir pid) = fd_dir pid.
Proof. unfold fd_dir. now rewrite cstr_proc_path. Qed.

Lemma cstr_maps pid : cstr (maps pid) = maps pid.
Proof. unfold maps. now rewrite cstr_proc_path. Qed.

Lemma cstr_proc_link pid name : cstr (proc_link pid name) = proc_link pid name.
Proof.
  unfold proc_link. rewrite cstr_proc_path. do 2 f_equal.
  cbn [app cstr]. change (Ascii.eqb slash NUL) with false. cbv iota.
  now rewrite cstr_idem.
Qed.

(** * PathMatchesMountPoint *)

Lemma PathMatchesMountPoint_eq path mountPoint :
  Z.of_nat (strlen mountPoint) <= INT_MAX ->
  PathMatchesMountPoint path mountPoint
  = matches_spec (cstr path) (cstr mountPoint).
Proof.
  intros Hfit. rename mountPoint into mp.
  unfold PathMatchesMountPoint, matches_spec.
  rewrite to_int_small by (unfold INT_MAX in Hfit; lia).
  rewrite Nat2Z.id, strncmp_starts_with, length_cstr.
  destruct (Nat.leb_spec (strlen mp) 1) as [Hl|Hl].
  - replace (1 <? Z.of_nat (strlen mp)) with false by (symmetry; apply Z.ltb_ge; lia).
    reflexivity.
  - replace (1 <? Z.of_nat (strlen mp)) with true by (symmetry; apply Z.ltb_lt; lia).
    simpl. destruct (starts_with (cstr path) (cstr mp)) eqn:Hs; simpl; [|reflexivity].
    unfold char_at.
    replace (Z.to_nat (Z.of_nat (strlen mp) - 1)) with (strlen mp - 1)%nat by lia.
    rewrite Nat2Z.id.
    rewrite ends_with_slash_nth
      by (intros E; apply (f_equal (@List.length _)) in E;
          rewrite length_cstr in E; simpl in E; lia).
    rewrite length_cstr, <- nth_cstr by lia.
    destruct (Ascii.eqb (nth (strlen mp - 1) mp NUL) slash); [reflexivity|].
    apply starts_with_length in Hs. rewrite !length_cstr in Hs.
    destruct (nth_error (cstr path) (strlen mp)) as [c|] eqn:Hn.
    + assert (Hlt : (strlen mp < strlen path)%nat).
      { rewrite <- (length_cstr path). apply nth_error_Some. congruence. }
      rewrite nth_cstr by assumption.
      rewrite (nth_error_nth _ _ NUL Hn).
      apply nth_error_In in Hn. apply cstr_no_nul in Hn. now rewrite Hn.
    + apply nth_error_None in Hn. rewrite length_cstr in Hn.
      replace (strlen mp) with (strlen path) by lia.
      now rewrite nth_strlen.
Qed.

(** A path strictly below the mount point matches. *)
Lemma PathMatchesMountPoint_below mountPoint rest :
  (2 <= strlen mountPoint)%nat ->
  Z.of_nat (strlen mountPoint) <= INT_MAX ->
  PathMatchesMountPoint (cstr mountPoint ++ slash :: rest) mountPoint = true.
Proof.
  intros H2 Hfit. rewrite PathMatchesMountPoint_eq by assumption.
  rewrite cstr_app by apply cstr_no_nul.
  cbn [cstr]. change (Ascii.eqb slash NUL) with false. cbv iota.
  unfold matches_spec. rewrite length_cstr.
  replace (strlen mountPoint <=? 1)%nat with false
    by (symmetry; apply Nat.leb_gt; lia).
  rewrite starts_with_app. cbn [negb].
  destruct (ends_with_slash (cstr mountPoint)); [reflexivity|].
  rewrite nth_error_app2 by (rewrite length_cstr; lia).
  rewrite length_cstr, Nat.sub_diag. reflexivity.
Qed.

(** C1.  For every candidate path and every mount point whose length fits
    an [int], [PathMatchesMountPoint] follows the four ordered rules of the
    PathMatcher contract, read on the strings the two pointers denote:
    false when the mount point has at most one byte, false when the
    candidate does not begin with the mount point, true when it does and the
    mount point ends with '/', and otherwise true exactly when the byte of
    the candidate after the prefix is the end of the string or '/'.  In
    particular nothing matches "/", and "/mnt/foobar" does not match
    "/mnt/foo". *)
Theorem PathMatchesMountPoint_rules path mountPoint :
  Z.of_nat (strlen mountPoint) <= INT_MAX ->
  PathMatchesMountPoint path mountPoint
  = matches_spec (cstr path) (cstr mountPoint)
  /\ PathMatchesMountPoint path (lit "/") = false
  /\ PathMatchesMountPoint (lit "/mnt/foobar") (lit "/mnt/foo") = false.
Proof.
  intros Hfit. split; [now apply PathMatchesMountPoint_eq|].
  split; reflexivity.
Qed.

(** The rules at work on a path below "/mnt/foo". *)
Lemma PathMatchesMountPoint_rules_witness :
  Z.of_nat (strlen (lit "/mnt/foo")) <= INT_MAX
  /\ PathMatchesMountPoint (lit "/mnt/foo/bar") (lit "/mnt/foo")
     = matches_spec (cstr (lit "/mnt/foo/bar")) (cstr (lit "/mnt/foo"))
  /\ PathMatchesMountPoint (lit "/mnt/foo/bar") (lit "/") = false
  /\ PathMatchesMountPoint (lit "/mnt/foobar") (lit "/mnt/foo") = false.
Proof.
  split; [vm_compute; discriminate|].
  apply (PathMatchesMountPoint_rules (lit "/mnt/foo/bar") (lit "/mnt/foo")).
  vm_compute. discriminate.
Defined.

(** * The trace monad *)

Lemma bind_eq {A B} (m : IO A) (f : A -> IO B) :
  bind m f = (fst (f (fst m)), snd m ++ snd (f (fst m))).
Proof.
  unfold bind. destruct m as [a t]. simpl. now destruct (f a).
Qed.

Lemma fst_bind {A B} (m : IO A) (f : A -> IO B) :
  fst (bind m f) = fst (f (fst m)).
Proof. now rewrite bind_eq. Qed.

Lemma snd_bind {A B} (m : IO A) (f : A -> IO B) :
  snd (bind m f) = snd m ++ snd (f (fst m)).
Proof. now rewrite bind_eq. Qed.

Lemma emit_bind {B} e (f : unit -> IO B) :
  bind (emit e) f = (fst (f tt), e :: snd (f tt)).
Proof. now rewrite bind_eq. Qed.

Lemma fst_orelse (a b : IO bool) : fst (a ||| b) = fst a || fst b.
Proof.
  unfold orelse. rewrite fst_bind. now destruct (fst a).
Qed.

Lemma snd_orelse (a b : IO bool) :
  snd (a ||| b) = snd a ++ (if fst a then [] else snd b).
Proof.
  unfold orelse. rewrite snd_bind. now destruct (fst a).
Qed.

Ltac io_step :=
  repeat (rewrite bind_eq; cbn [fst snd ret emit app]).

(** * Arrays *)

#[local] Arguments Z.to_nat : simpl never.
#[local] Arguments Z.of_nat : simpl never.
#[local] Arguments PATH_MAX : simpl never.
#[local] Arguments firstn : simpl nomatch.
#[local] Arguments skipn : simpl nomatch.

Lemma length_overwrite a bytes :
  List.length (overwrite a bytes)
  = Nat.max (List.length a) (List.length bytes).
Proof.
  unfold overwrite. rewrite length_app, length_skipn. lia.
Qed.

Lemma length_char_array stack n :
  List.length (char_array stack n) = Z.to_nat n.
Proof.
  unfold char_array. rewrite length_firstn, length_app, repeat_length. lia.
Qed.

Lemma store_inside a i c :
  (i < List.length a)%nat ->
  store a (Z.of_nat i) c = (firstn i a ++ c :: skipn (S i) a, []).
Proof.
  intros H. unfold store.
  replace (0 <=? Z.of_nat i) with true by (symmetry; apply Z.leb_le; lia).
  replace (Z.of_nat i <? Z.of_nat (List.length a)) with true
    by (symmetry; apply Z.ltb_lt; lia).
  now rewrite Nat2Z.id.
Qed.

Lemma store_outside a i c :
  i < 0 -> store a i c = (a, [EvStoreOutside i]).
Proof.
  intros H. unfold store.
  replace (0 <=? i) with false by (symmetry; apply Z.leb_gt; lia).
  reflexivity.
Qed.

(** Bytes written at the start of an array, then a NUL stored after them. *)
Lemma terminate_after a bytes :
  (List.length bytes < List.length a)%nat ->
  store (overwrite a bytes) (Z.of_nat (List.length bytes)) NUL
  = (bytes ++ NUL :: skipn (S (List.length bytes)) a, []).
Proof.
  intros H. rewrite store_inside by (rewrite length_overwrite; lia).
  unfold overwrite. f_equal.
  rewrite firstn_app, Nat.sub_diag, firstn_all, firstn_O, app_nil_r.
  f_equal. f_equal.
  rewrite skipn_app, skipn_all2 by lia.
  replace (S (List.length bytes) - List.length bytes)%nat with 1%nat by lia.
  simpl. now rewrite skipn_skipn.
Qed.

Lemma cstr_strcpy dst src : cstr (strcpy dst src) = cstr src.
Proof.
  unfold strcpy, overwrite. rewrite <- app_assoc. simpl.
  now rewrite cstr_app_nul, cstr_idem.
Qed.

Lemma length_strcpy dst src :
  (List.length dst <= List.length (strcpy dst src))%nat.
Proof. unfold strcpy. rewrite length_overwrite. lia. Qed.

Lemma length_firstn_cons {A} n (c : A) l :
  (0 < n)%nat ->
  (0 < List.length (firstn n (c :: l)) <= n)%nat.
Proof.
  intros H. rewrite length_firstn. simpl List.length. lia.
Qed.

(** * ReadSymLink *)

Lemma ReadSymLink_eq K path link :
  ReadSymLink K path link
  = match k_lstat K (cstr path) with
    | None => ((false, link), [EvLstat (cstr path)])
    | Some st_mode =>
        if negb (Z.land st_mode S_IFMT =? S_IFLNK)
        then ((false, link), [EvLstat (cstr path)])
        else
          match k_readlink K (cstr path) with
          | None => ((false, link), [EvLstat (cstr path); EvReadlink (cstr path)])
          | Some target =>
              let bytes := firstn (Z.to_nat (PATH_MAX - 1)) target in
              if Z.of_nat (List.length bytes) <=? 0
              then ((false, overwrite link bytes),
                    [EvLstat (cstr path); EvReadlink (cstr path)])
              else
                let r := store (overwrite link bytes)
                               (Z.of_nat (List.length bytes)) NUL in
                ((true, fst r),
                 EvLstat (cstr path) :: EvReadlink (cstr path) :: snd r)
          end
    end.
Proof.
  unfold ReadSymLink, lstat, readlink. io_step.
  destruct (k_lstat K (cstr path)) as [st_mode|]; [|reflexivity].
  destruct (negb (Z.land st_mode S_IFMT =? S_IFLNK)); [reflexivity|].
  io_step.
  destruct (k_readlink K (cstr path)) as [target|]; [|reflexivity].
  cbv zeta.
  destruct (Z.of_nat (List.length (firstn (Z.to_nat (PATH_MAX - 1)) target)) <=? 0);
    [reflexivity|].
  io_step. now rewrite app_nil_r.
Qed.

Lemma ReadSymLink_lstat_fails K path link :
  k_lstat K (cstr path) = None ->
  ReadSymLink K path link = ((false, link), [EvLstat (cstr path)]).
Proof.
  intros H. now rewrite ReadSymLink_eq, H.
Qed.

Lemma ReadSymLink_not_a_link K path link st_mode :
  k_lstat K (cstr path) = Some st_mode ->
  Z.land st_mode S_IFMT <> S_IFLNK ->
  ReadSymLink K path link = ((false, link), [EvLstat (cstr path)]).
Proof.
  intros H N. rewrite ReadSymLink_eq, H.
  apply Z.eqb_neq in N. now rewrite N.
Qed.

Lemma ReadSymLink_readlink_fails K path link st_mode :
  k_lstat K (cstr path) = Some st_mode ->
  Z.land st_mode S_IFMT = S_IFLNK ->
  k_readlink K (cstr path) = None ->
  ReadSymLink K path link
  = ((false, link), [EvLstat (cstr path); EvReadlink (cstr path)]).
Proof.
  intros H N R. rewrite ReadSymLink_eq, H, R.
  apply Z.eqb_eq in N. now rewrite N.
Qed.

Lemma ReadSymLink_empty_target K path link st_mode :
  k_lstat K (cstr path) = Some st_mode ->
  Z.land st_mode S_IFMT = S_IFLNK ->
  k_readlink K (cstr path) = Some [] ->
  ReadSymLink K path link
  = ((false, link), [EvLstat (cstr path); EvReadlink (cstr path)]).
Proof.
  intros H N R. rewrite ReadSymLink_eq, H, R.
  apply Z.eqb_eq in N. rewrite N. now rewrite firstn_nil.
Qed.

Lemma ReadSymLink_reads K path link st_mode c target :
  (Z.to_nat PATH_MAX <= List.length link)%nat ->
  k_lstat K (cstr path) = Some st_mode ->
  Z.land st_mode S_IFMT = S_IFLNK ->
  k_readlink K (cstr path) = Some (c :: target) ->
  let bytes := firstn (Z.to_nat (PATH_MAX - 1)) (c :: target) in
  ReadSymLink K path link
  = ((true, bytes ++ NUL :: skipn (S (List.length bytes)) link),
     [EvLstat (cstr path); EvReadlink (cstr path)]).
Proof.
  intros L H N R. rewrite ReadSymLink_eq, H, R.
  apply Z.eqb_eq in N. rewrite N. cbv zeta. cbn [negb].
  assert (P : (0 < Z.to_nat (PATH_MAX - 1))%nat) by (unfold PATH_MAX; lia).
  pose proof (length_firstn_cons _ c target P) as Hb.
  assert (Q : (Z.to_nat (PATH_MAX - 1) < Z.to_nat PATH_MAX)%nat)
    by (unfold PATH_MAX; lia).
  generalize dependent (firstn (Z.to_nat (PATH_MAX - 1)) (c :: target)).
  intros bytes Hb.
  replace (Z.of_nat (List.length bytes) <=? 0) with false
    by (symmetry; apply Z.leb_gt; lia).
  rewrite terminate_after by lia. reflexivity.
Qed.

Lemma ReadSymLink_none K path link :
  k_lstat K (cstr path) = None \/ k_readlink K (cstr path) = None ->
  fst (ReadSymLink K path link) = (false, link).
Proof.
  intros H. rewrite ReadSymLink_eq.
  destruct (k_lstat K (cstr path)) as [m|]; [|reflexivity].
  destruct (negb (Z.land m S_IFMT =? S_IFLNK)); [reflexivity|].
  destruct H as [H|H]; [discriminate|]. now rewrite H.
Qed.

(** C6.  [ReadSymLink] on a [PATH_MAX]-byte array returns 1 exactly when
    the path exists, is a symbolic link, and [readlink] gives a target of
    positive length.  A missing entry, a regular file or directory, and a
    failure of [lstat] or of [readlink] all give 0, with no other effect
    than the calls made.  On success the array holds the target, cut to at
    most [PATH_MAX - 1] bytes, followed by a NUL stored inside the array. *)
Theorem ReadSymLink_spec K path link :
  List.length link = Z.to_nat PATH_MAX ->
  let r := fst (ReadSymLink K path link) in
  (fst r = true <->
   exists st_mode target,
     k_lstat K (cstr path) = Some st_mode
     /\ Z.land st_mode S_IFMT = S_IFLNK
     /\ k_readlink K (cstr path) = Some target
     /\ target <> [])
  /\ (forall target,
        fst r = true -> k_readlink K (cstr path) = Some target ->
        let n := Nat.min (List.length target) (Z.to_nat (PATH_MAX - 1)) in
        firstn n (snd r) = firstn n target
        /\ nth_error (snd r) n = Some NUL
        /\ Z.of_nat n < PATH_MAX
        /\ cstr (snd r) = cstr (firstn (Z.to_nat (PATH_MAX - 1)) target)
        /\ Z.of_nat (strlen (snd r)) <= PATH_MAX - 1
        /\ List.length (snd r) = List.length link)
  /\ (fst r = false -> cstr (snd r) = cstr link)
  /\ (forall i, ~ In (EvStoreOutside i) (snd (ReadSymLink K path link))).
Proof.
  intros L.
  assert (L' : (Z.to_nat PATH_MAX <= List.length link)%nat) by lia.
  destruct (k_lstat K (cstr path)) as [st_mode|] eqn:Hs.
  2:{ rewrite (ReadSymLink_lstat_fails _ _ _ Hs). cbn [fst snd].
      repeat split; try discriminate.
      - intros (m & t & H & _). congruence.
      - intros i [H|[]]. discriminate. }
  destruct (Z.eq_dec (Z.land st_mode S_IFMT) S_IFLNK) as [Hm|Hm].
  2:{ rewrite (ReadSymLink_not_a_link _ _ _ _ Hs Hm). cbn [fst snd].
      repeat split; try discriminate.
      - intros (m & t & H & H' & _). congruence.
      - intros i [H|[]]. discriminate. }
  destruct (k_readlink K (cstr path)) as [[|c target]|] eqn:Hr.
  - rewrite (ReadSymLink_empty_target _ _ _ _ Hs Hm Hr). cbn [fst snd].
    repeat split; try discriminate.
    + intros (m & t & _ & _ & H & N). congruence.
    + intros i [H|[H|[]]]; discriminate.
  - rewrite (ReadSymLink_reads _ _ _ _ _ _ L' Hs Hm Hr). cbn [fst snd].
    assert (P : (0 < Z.to_nat (PATH_MAX - 1))%nat) by (unfold PATH_MAX; lia).
    pose proof (length_firstn_cons _ c target P) as Hb.
    assert (Hn : List.length (firstn (Z.to_nat (PATH_MAX - 1)) (c :: target))
                 = Nat.min (List.length (c :: target)) (Z.to_nat (PATH_MAX - 1)))
      by (rewrite length_firstn; lia).
    assert (Q : (Z.to_nat (PATH_MAX - 1) < Z.to_nat PATH_MAX)%nat)
      by (unfold PATH_MAX; lia).
    split; [|split; [|split]].
    + split; [|reflexivity]. intros _. exists st_mode, (c :: target).
      repeat split; auto. discriminate.
    + intros t _ [= <-]. cbv zeta. rewrite <- Hn.
      set (bytes := firstn (Z.to_nat (PATH_MAX - 1)) (c :: target)) in *.
      repeat split.
      * rewrite firstn_app, Nat.sub_diag, firstn_all, firstn_O, app_nil_r.
        rewrite Hn, <- firstn_firstn. fold bytes.
        symmetry. apply firstn_all2. simpl List.length in *. lia.
      * rewrite nth_error_app2, Nat.sub_diag by lia. reflexivity.
      * clearbody bytes. unfold PATH_MAX in *. lia.
      * apply cstr_app_nul.
      * rewrite cstr_app_nul_strlen. pose proof (strlen_le bytes).
        clearbody bytes. unfold PATH_MAX in *. lia.
      * clearbody bytes. rewrite length_app. simpl List.length.
        rewrite length_skipn. lia.
    + discriminate.
    + intros i [H|[H|[]]]; discriminate.
  - rewrite (ReadSymLink_readlink_fails _ _ _ _ Hs Hm Hr). cbn [fst snd].
    repeat split; try discriminate.
    + intros (m & t & _ & _ & H & N). congruence.
    + intros i [H|[H|[]]]; discriminate.
Qed.

(** On a kernel where /proc/1/cwd is a symbolic link. *)
Lemma ReadSymLink_spec_witness :
  let K := cwd_inside None in
  let link := char_array [] PATH_MAX in
  let r := fst (ReadSymLink K (lit "/proc/1/cwd") link) in
  List.length link = Z.to_nat PATH_MAX
  /\ (fst r = true <->
      exists st_mode target,
        k_lstat K (cstr (lit "/proc/1/cwd")) = Some st_mode
        /\ Z.land st_mode S_IFMT = S_IFLNK
        /\ k_readlink K (cstr (lit "/proc/1/cwd")) = Some target
        /\ target <> []).
Proof.
  cbv zeta. split; [vm_compute; reflexivity|].
  apply (ReadSymLink_spec (cwd_inside None) (lit "/proc/1/cwd")
           (char_array [] PATH_MAX)).
  vm_compute. reflexivity.
Defined.

(** * GetProcessName *)

Lemma GetProcessName_eq K pid buffer :
  let path := cmdline pid in
  let buffer0 := strcpy buffer path in
  GetProcessName K pid buffer
  = match k_open K path with
    | None => (strcpy buffer0 (lit "???"), [EvOpen path])
    | Some ReadFails =>
        (buffer0, [EvOpen path; EvRead path; EvStoreOutside (-1); EvClose path])
    | Some (ReadData data) =>
        let bytes := firstn (Z.to_nat (PATH_MAX - 1)) data in
        let r := store (overwrite buffer0 bytes) (Z.of_nat (List.length bytes)) NUL in
        (fst r, [EvOpen path; EvRead path] ++ snd r ++ [EvClose path])
    end.
Proof.
  cbv zeta. unfold GetProcessName, open, read. fold (cmdline pid).
  rewrite !cstr_strcpy, cstr_cmdline. io_step.
  destruct (k_open K (cmdline pid)) as [[|data]|]; [| |reflexivity].
  - io_step. rewrite store_outside by lia. reflexivity.
  - io_step. reflexivity.
Qed.

(** What the slip on the failing [read] does: the NUL goes to [buffer[-1]],
    outside the array, and the buffer still holds the path of the file. *)
Lemma GetProcessName_read_fails K pid buffer :
  k_open K (cmdline pid) = Some ReadFails ->
  In (EvStoreOutside (-1)) (snd (GetProcessName K pid buffer))
  /\ cstr (fst (GetProcessName K pid buffer)) = cmdline pid.
Proof.
  intros H. rewrite GetProcessName_eq, H. cbn [fst snd]. split.
  - simpl. auto.
  - now rewrite cstr_strcpy, cstr_cmdline.
Qed.

(** C8, as the code has it.  On a [PATH_MAX]-byte buffer the resolver
    returns "???" when the command line cannot be opened (missing file,
    permission denied).  When it opens and [read] delivers its bytes, the
    name is those bytes, at most [PATH_MAX - 1] of them, up to the first
    NUL, and the terminator is stored inside the buffer; an empty command
    line therefore gives the empty name. *)
Theorem GetProcessName_spec K pid buffer :
  List.length buffer = Z.to_nat PATH_MAX ->
  let name := fst (GetProcessName K pid buffer) in
  (k_open K (cmdline pid) = None -> cstr name = lit "???")
  /\ (forall data,
        k_open K (cmdline pid) = Some (ReadData data) ->
        let n := Nat.min (List.length data) (Z.to_nat (PATH_MAX - 1)) in
        cstr name = cstr (firstn (Z.to_nat (PATH_MAX - 1)) data)
        /\ nth_error name n = Some NUL
        /\ Z.of_nat n < PATH_MAX
        /\ (data = [] -> cstr name = [])
        /\ forall i, ~ In (EvStoreOutside i) (snd (GetProcessName K pid buffer))).
Proof.
  intros L. cbv zeta. rewrite GetProcessName_eq. cbv zeta. split.
  - intros ->. cbn [fst]. apply cstr_strcpy.
  - intros data ->.
    pose proof (length_strcpy buffer (cmdline pid)) as L0.
    assert (Hn : List.length (firstn (Z.to_nat (PATH_MAX - 1)) data)
                 = Nat.min (List.length data) (Z.to_nat (PATH_MAX - 1)))
      by (rewrite length_firstn; lia).
    rewrite <- Hn.
    assert (Hd : data = [] -> firstn (Z.to_nat (PATH_MAX - 1)) data = [])
      by (intros ->; apply firstn_nil).
    assert (Hb : (List.length (firstn (Z.to_nat (PATH_MAX - 1)) data)
                  < Z.to_nat PATH_MAX)%nat)
      by (rewrite length_firstn; unfold PATH_MAX; lia).
    generalize dependent (firstn (Z.to_nat (PATH_MAX - 1)) data).
    intros bytes _ Hd Hb.
    rewrite terminate_after by lia. cbn [fst snd app].
    repeat split.
    + apply cstr_app_nul.
    + rewrite nth_error_app2, Nat.sub_diag by lia. reflexivity.
    + unfold PATH_MAX in *. lia.
    + intros E. rewrite (Hd E). reflexivity.
    + intros i [H|[H|[H|[]]]]; discriminate.
Qed.

(** An empty command line gives the empty name, not "???". *)
Lemma GetProcessName_empty_cmdline :
  let K := cwd_inside (Some (ReadData [])) in
  k_open K (cmdline 1) = Some (ReadData [])
  /\ cstr (fst (GetProcessName K 1 (char_array [] PATH_MAX))) = []
  /\ cstr (fst (GetProcessName K 1 (char_array [] PATH_MAX))) <> lit "???".
Proof.
  cbv zeta. split; [reflexivity|].
  assert (E : cstr (fst (GetProcessName (cwd_inside (Some (ReadData []))) 1
                           (char_array [] PATH_MAX))) = [])
    by (vm_compute; reflexivity).
  split; [exact E|]. rewrite E. discriminate.
Qed.

(** A command line of two arguments: the name is the first. *)
Lemma GetProcessName_spec_witness :
  let K := cwd_inside (Some (ReadData (lit "sh" ++ [NUL] ++ lit "-c"))) in
  let buffer := char_array [] PATH_MAX in
  List.length buffer = Z.to_nat PATH_MAX
  /\ k_open K (cmdline 1) = Some (ReadData (lit "sh" ++ [NUL] ++ lit "-c"))
  /\ cstr (fst (GetProcessName K 1 buffer))
     = cstr (firstn (Z.to_nat (PATH_MAX - 1)) (lit "sh" ++ [NUL] ++ lit "-c")).
Proof.
  cbv zeta. split; [vm_compute; reflexivity|]. split; [reflexivity|].
  apply (proj2 (GetProcessName_spec
                  (cwd_inside (Some (ReadData (lit "sh" ++ [NUL] ++ lit "-c"))))
                  1 (char_array [] PATH_MAX) ltac:(vm_compute; reflexivity))).
  reflexivity.
Defined.

(** * get_pid *)

Lemma isdigit_value c : isdigit c = true -> 0 <= digit_value c <= 9.
Proof.
  unfold isdigit, digit_value. intros H. apply andb_prop in H.
  destruct H as [H1 H2]. apply Z.leb_le in H1, H2.
  change (code "0") with 48. lia.
Qed.

Lemma decimal_grows s acc :
  forallb isdigit s = true -> 0 <= acc ->
  acc <= fold_left (fun a c => 10 * a + digit_value c) s acc.
Proof.
  revert acc. induction s as [|c s IH]; intros acc H Ha; cbn [fold_left]; [lia|].
  cbn [forallb] in H. apply andb_prop in H. destruct H as [Hc Hs].
  pose proof (isdigit_value c Hc).
  specialize (IH (10 * acc + digit_value c) Hs). lia.
Qed.

Lemma get_pid_loop_digits s acc :
  forallb isdigit (cstr s) = true -> 0 <= acc ->
  fold_left (fun a c => 10 * a + digit_value c) (cstr s) acc <= INT_MAX ->
  get_pid_loop s acc
  = fold_left (fun a c => 10 * a + digit_value c) (cstr s) acc.
Proof.
  revert acc. induction s as [|c s IH]; intros acc H Ha Hfit;
    cbn [get_pid_loop cstr fold_left] in *; [reflexivity|].
  destruct (Ascii.eqb c NUL); [reflexivity|].
  cbn [forallb fold_left] in *. apply andb_prop in H. destruct H as [Hc Hs].
  rewrite Hc. cbn [negb].
  pose proof (isdigit_value c Hc) as Hv. fold (digit_value c).
  pose proof (decimal_grows (cstr s) (10 * acc + digit_value c) Hs) as Hg.
  rewrite to_int_small by (unfold INT_MAX in *; lia).
  apply IH; [assumption | lia | assumption].
Qed.

Lemma get_pid_loop_nondigit s acc :
  forallb isdigit (cstr s) = false -> get_pid_loop s acc = -1.
Proof.
  revert acc. induction s as [|c s IH]; intros acc H;
    cbn [get_pid_loop cstr forallb] in *; [discriminate|].
  destruct (Ascii.eqb c NUL); [discriminate|].
  cbn [forallb] in H. destruct (isdigit c); cbn [negb andb] in *;
    [apply IH, H | reflexivity].
Qed.










(** * CheckFileMaps *)

Lemma read_line_app n file :
  fst (read_line n file) ++ snd (read_line n file) = file.
Proof.
  revert file. induction n as [|n IH]; intros [|c file]; cbn [read_line];
    try reflexivity.
  destruct (Ascii.eqb c newline); [reflexivity|].
  specialize (IH file). destruct (read_line n file) as [line rest].
  cbn [fst snd] in *. cbn [app]. now rewrite IH.
Qed.

Lemma read_line_takes n c file :
  fst (read_line (S n) (c :: file)) <> [].
Proof.
  cbn [read_line]. destruct (Ascii.eqb c newline); [discriminate|].
  destruct (read_line n file). discriminate.
Qed.

(** A call of [fgets] that returns a line takes at least one byte. *)
Lemma read_fgets_shorter file buffer file' :
  read_fgets (PATH_MAX + 100) file = Some (buffer, file') ->
  (List.length file' < List.length file)%nat.
Proof.
  unfold read_fgets. destruct file as [|c file]; [discriminate|].
  assert (N : exists n, Z.to_nat (PATH_MAX + 100 - 1) = S n).
  { exists (Z.to_nat (PATH_MAX + 98)). unfold PATH_MAX. lia. }
  destruct N as [n ->]. intros E.
  pose proof (read_line_app (S n) (c :: file)) as A.
  pose proof (read_line_takes n c file) as T.
  destruct (read_line (S n) (c :: file)) as [line rest].
  injection E as -> ->. cbn [fst snd] in A, T.
  rewrite <- A, length_app. destruct buffer; [congruence|]. simpl. lia.
Qed.

Lemma lines_read_enough fuel file :
  (List.length file <= fuel)%nat ->
  lines_read fuel (PATH_MAX + 100) file = fgets_lines file.
Proof.
  unfold fgets_lines. revert file.
  induction fuel as [fuel IH] using lt_wf_ind. intros file Hf.
  destruct fuel as [|fuel].
  - destruct file; [reflexivity | simpl in Hf; lia].
  - cbn [lines_read].
    destruct (read_fgets (PATH_MAX + 100) file) as [[buffer file']|] eqn:E.
    + pose proof (read_fgets_shorter _ _ _ E) as Hs.
      destruct (List.length file) as [|n] eqn:En; [lia|].
      cbn [lines_read]. rewrite E. f_equal.
      rewrite (IH fuel) by lia. rewrite (IH n) by lia. reflexivity.
    + destruct file; [reflexivity | discriminate].
Qed.

Lemma read_fgets_app size file buffer file' :
  read_fgets size file = Some (buffer, file') -> buffer ++ file' = file.
Proof.
  unfold read_fgets. destruct file as [|c file]; [discriminate|].
  pose proof (read_line_app (Z.to_nat (size - 1)) (c :: file)) as A.
  destruct (read_line (Z.to_nat (size - 1)) (c :: file)) as [line rest].
  intros [= <- <-]. exact A.
Qed.

(** The lines are the file, cut: no byte is lost between them. *)
Lemma fgets_lines_concat file : List.concat (fgets_lines file) = file.
Proof.
  unfold fgets_lines.
  assert (G : forall fuel f,
             (List.length f <= fuel)%nat ->
             List.concat (lines_read fuel (PATH_MAX + 100) f) = f).
  { induction fuel as [|fuel IH]; intros f Hf.
    - destruct f; [reflexivity | simpl in Hf; lia].
    - cbn [lines_read].
      destruct (read_fgets (PATH_MAX + 100) f) as [[buffer f']|] eqn:E.
      + pose proof (read_fgets_shorter _ _ _ E) as Hs.
        cbn [List.concat]. rewrite IH by lia.
        exact (read_fgets_app _ _ _ _ E).
      + destruct f; [reflexivity | discriminate]. }
  apply G. lia.
Qed.

Lemma maps_loop_found K stack fuel pid mountPoint filename file :
  maps_loop K stack fuel pid mountPoint filename file true = ret true.
Proof. destruct fuel; reflexivity. Qed.

Lemma maps_loop_fst K stack fuel pid mountPoint filename file :
  fst (maps_loop K stack fuel pid mountPoint filename file false)
  = existsb (line_matches mountPoint) (lines_read fuel (PATH_MAX + 100) file).
Proof.
  revert file. induction fuel as [|fuel IH]; intros file;
    cbn [maps_loop lines_read]; [reflexivity|].
  unfold fgets. rewrite !fst_bind. cbn [emit ret fst snd].
  destruct (read_fgets (PATH_MAX + 100) file) as [[buffer file']|]; [|reflexivity].
  cbn [existsb]. unfold line_matches at 1.
  destruct (strchr buffer slash) as [path|]; [|apply IH].
  destruct (PathMatchesMountPoint path mountPoint); [|apply IH].
  rewrite !fst_bind, maps_loop_found. reflexivity.
Qed.

(** The fuel [CheckFileMaps] gives its loop is never used up: any amount
    above the length of the file yields the same run. *)
Lemma maps_loop_fuel K stack fuel1 fuel2 pid mountPoint filename file mapOpen :
  (List.length file < fuel1)%nat -> (List.length file < fuel2)%nat ->
  maps_loop K stack fuel1 pid mountPoint filename file mapOpen
  = maps_loop K stack fuel2 pid mountPoint filename file mapOpen.
Proof.
  revert fuel2 file mapOpen.
  induction fuel1 as [|fuel1 IH]; intros fuel2 file mapOpen H1 H2; [lia|].
  destruct fuel2 as [|fuel2]; [lia|]. cbn [maps_loop].
  destruct mapOpen; [reflexivity|].
  unfold fgets. rewrite !bind_eq. cbn [emit ret fst snd].
  destruct (read_fgets (PATH_MAX + 100) file) as [[buffer file']|] eqn:E;
    [|reflexivity].
  pose proof (read_fgets_shorter _ _ _ E) as Hs.
  destruct (strchr buffer slash) as [path|];
    [destruct (PathMatchesMountPoint path mountPoint)|];
    rewrite ?bind_eq; rewrite (IH fuel2) by lia; reflexivity.
Qed.

Lemma CheckFileMaps_fst K stack pid mountPoint :
  fst (CheckFileMaps K stack pid mountPoint)
  = match k_fopen K (maps pid) with
    | None => false
    | Some file => existsb (line_matches mountPoint) (fgets_lines file)
    end.
Proof.
  unfold CheckFileMaps, fopen. fold (maps pid).
  replace (cstr (maps pid)) with (maps pid)
    by (unfold maps; now rewrite cstr_proc_path).
  rewrite !fst_bind. cbn [emit ret fst snd].
  destruct (k_fopen K (maps pid)) as [file|]; [|reflexivity].
  rewrite !fst_bind, maps_loop_fst. cbn [emit ret fst snd].
  rewrite lines_read_enough by lia. reflexivity.
Qed.

(** C5, as the code has it.  Probe B reports the process as holding
    exactly when the maps file opens and, for one of the lines [fgets]
    returns, the rest of the line from its first '/' on (whatever follows
    the pathname included) matches the mount point by the PathMatcher
    rules.  Lines without '/' never match.  A line whose pathname lies
    below the mount point, that is the mount point followed by '/',
    matches. *)
Theorem CheckFileMaps_lines K stack pid mountPoint :
  (fst (CheckFileMaps K stack pid mountPoint) = true
   <-> exists file line path,
         k_fopen K (maps pid) = Some file
         /\ In line (fgets_lines file)
         /\ strchr line slash = Some path
         /\ PathMatchesMountPoint path mountPoint = true)
  /\ (forall line path,
        strchr line slash = Some path ->
        exists pre,
          line = pre ++ path
          /\ hd NUL path = slash
          /\ forall c, In c pre -> Ascii.eqb c slash = false)
  /\ (forall line,
        strchr line slash = None -> line_matches mountPoint line = false)
  /\ (forall pre rest,
        (forall c, In c pre ->
                   Ascii.eqb c slash = false /\ Ascii.eqb c NUL = false) ->
        hd NUL mountPoint = slash ->
        (2 <= strlen mountPoint)%nat ->
        Z.of_nat (strlen mountPoint) <= INT_MAX ->
        line_matches mountPoint (pre ++ cstr mountPoint ++ slash :: rest) = true).
Proof.
  split; [|split; [|split]].
  - rewrite CheckFileMaps_fst. split.
    + destruct (k_fopen K (maps pid)) as [file|]; [|discriminate].
      intros H. apply existsb_exists in H. destruct H as (line & Hin & Hm).
      unfold line_matches in Hm.
      destruct (strchr line slash) as [path|] eqn:Hp; [|discriminate].
      exists file, line, path. auto.
    + intros (file & line & path & -> & Hin & Hp & Hm).
      apply existsb_exists. exists line. split; [assumption|].
      unfold line_matches. now rewrite Hp.
  - exact strchr_first.
  - intros line H. unfold line_matches. now rewrite H.
  - intros pre rest Hpre Hhd H2 Hfit. unfold line_matches.
    rewrite strchr_skip by assumption.
    destruct mountPoint as [|m mp]; [simpl in H2; lia|].
    cbn [hd] in Hhd. subst m.
    assert (E : strchr (cstr (slash :: mp) ++ slash :: rest) slash
                = Some (cstr (slash :: mp) ++ slash :: rest)) by reflexivity.
    rewrite E. now apply PathMatchesMountPoint_below.
Qed.

(** A mapping whose pathname is the mount point itself, followed by the
    newline that ends the line, is not a match. *)
Lemma CheckFileMaps_pathname_is_mount_point :
  k_fopen mapped_mount_point (maps 1)
  = Some (lit "00400000-0040b000 r-xp 00000000 08:01 12 /mnt/vol" ++ [newline])
  /\ fst (CheckFileMaps mapped_mount_point [] 1 (lit "/mnt/vol")) = false.
Proof. split; vm_compute; reflexivity. Qed.

(** A library mapped from below the mount point. *)
Lemma CheckFileMaps_lines_witness :
  let pre := lit "b6f00000-b6f21000 r-xp 00000000 b3:1c 77 " in
  let rest := lit "lib.so" ++ [newline] in
  (forall c, In c pre -> Ascii.eqb c slash = false /\ Ascii.eqb c NUL = false)
  /\ hd NUL (lit "/mnt/vol") = slash
  /\ (2 <= strlen (lit "/mnt/vol"))%nat
  /\ Z.of_nat (strlen (lit "/mnt/vol")) <= INT_MAX
  /\ line_matches (lit "/mnt/vol")
       (pre ++ cstr (lit "/mnt/vol") ++ slash :: rest) = true.
Proof.
  cbv zeta.
  assert (P : forall c,
             In c (lit "b6f00000-b6f21000 r-xp 00000000 b3:1c 77 ") ->
             Ascii.eqb c slash = false /\ Ascii.eqb c NUL = false).
  { intros c H. vm_compute in H.
    repeat (destruct H as [<-|H]; [split; reflexivity|]). destruct H. }
  split; [exact P|]. split; [reflexivity|].
  split; [vm_compute; lia|]. split; [vm_compute; discriminate|].
  apply (proj2 (proj2 (proj2
           (CheckFileMaps_lines absent [] 1 (lit "/mnt/vol"))))).
  - exact P.
  - reflexivity.
  - vm_compute. lia.
  - vm_compute. discriminate.
Defined.

(** * The probes of one process *)

Lemma CheckSymLink_eq K stack pid mountPoint name message :
  CheckSymLink K stack pid mountPoint name message
  = let r := ReadSymLink K (proc_link pid name) (char_array stack PATH_MAX) in
    if fst (fst r) && PathMatchesMountPoint (snd (fst r)) mountPoint then
      let n := GetProcessName K pid (char_array stack PATH_MAX) in
      (true,
       snd r ++ snd n
       ++ [EvLog LOG_WARN "Process %s (%d) has %s in %s"
             [AStr (cstr (fst n)); AInt pid; AStr (cstr message);
              AStr (cstr mountPoint)]])
    else (false, snd r).
Proof.
  unfold CheckSymLink. fold (proc_link pid name). cbv zeta. rewrite bind_eq.
  destruct (ReadSymLink K (proc_link pid name) (char_array stack PATH_MAX))
    as [[islink link] t]. cbn [fst snd].
  destruct (islink && PathMatchesMountPoint link mountPoint).
  - io_step. reflexivity.
  - cbn [ret fst snd]. now rewrite app_nil_r.
Qed.

Lemma fd_loop_found K stack pid mountPoint dirname parent dir link :
  fd_loop K stack pid mountPoint dirname parent dir link true
  = (true, [EvReaddir dirname]).
Proof. destruct dir; reflexivity. Qed.

(** One turn of the descriptor loop on an entry that is not a match. *)
Lemma fd_loop_next K stack pid mountPoint dirname parent d_name dir link :
  let r := ReadSymLink K (parent ++ cstr d_name) link in
  fst (fst r) && PathMatchesMountPoint (snd (fst r)) mountPoint = false ->
  fd_loop K stack pid mountPoint dirname parent (d_name :: dir) link false
  = if (strcmp d_name (lit ".") =? 0) || (strcmp d_name (lit "..") =? 0)
    then
      let rest := fd_loop K stack pid mountPoint dirname parent dir link false in
      (fst rest, EvReaddir dirname :: snd rest)
    else
      let rest := fd_loop K stack pid mountPoint dirname parent dir
                    (snd (fst r)) false in
      (fst rest, EvReaddir dirname :: snd r ++ snd rest).
Proof.
  cbv zeta. intros H. cbn [fd_loop]. rewrite emit_bind.
  destruct ((strcmp d_name (lit ".") =? 0) || (strcmp d_name (lit "..") =? 0));
    [reflexivity|].
  rewrite bind_eq.
  destruct (ReadSymLink K (parent ++ cstr d_name) link) as [[islink link'] t].
  cbn [fst snd] in *. now rewrite H.
Qed.

(** C2.  The holding decision for a pid is true exactly when one of the
    five probes (descriptors, maps, cwd, root, exe) is true on its own, and
    its run consists of the runs of the probes in that order up to and
    including the first that matches: the probes after it are not run. *)
Theorem holds_short_circuit K stack pid mountPoint :
  let ps := probes K stack pid mountPoint in
  (fst (holds K stack pid mountPoint) = true
   <-> exists p, In p ps /\ fst p = true)
  /\ snd (holds K stack pid mountPoint)
     = List.concat (map snd (through_first_match ps)).
Proof.
  unfold holds, probes.
  set (a := CheckFileDescriptorSymLinks _ _ _ _).
  set (b := CheckFileMaps _ _ _ _).
  set (c := CheckSymLink _ _ _ _ (lit "cwd") _).
  set (d := CheckSymLink _ _ _ _ (lit "root") _).
  set (e := CheckSymLink _ _ _ _ (lit "exe") _).
  cbv zeta. split.
  - rewrite !fst_orelse, !orb_true_iff. split.
    + intros [[[[H|H]|H]|H]|H]; eexists; (split; [|exact H]); simpl; auto 6.
    + intros [p [Hin Hp]]. simpl in Hin.
      destruct Hin as [<-|[<-|[<-|[<-|[<-|[]]]]]]; auto 6.
  - rewrite !snd_orelse, !fst_orelse. simpl through_first_match.
    destruct (fst a), (fst b), (fst c), (fst d), (fst e); simpl;
      rewrite ?app_nil_r, <- ?app_assoc; reflexivity.
Qed.

(** * Failures of the calls into /proc *)

Lemma CheckFileDescriptorSymLinks_no_dir K stack pid mountPoint :
  k_opendir K (fd_dir pid) = None ->
  CheckFileDescriptorSymLinks K stack pid mountPoint
  = (false, [EvOpendir (fd_dir pid)]).
Proof.
  intros H. unfold CheckFileDescriptorSymLinks, opendir. fold (fd_dir pid).
  io_step. now rewrite cstr_fd_dir, H.
Qed.

Lemma CheckFileMaps_no_file K stack pid mountPoint :
  k_fopen K (maps pid) = None ->
  CheckFileMaps K stack pid mountPoint = (false, [EvFopen (maps pid)]).
Proof.
  intros H. unfold CheckFileMaps, fopen. fold (maps pid).
  io_step. now rewrite cstr_maps, H.
Qed.

Lemma CheckSymLink_none K stack pid mountPoint name message :
  k_lstat K (proc_link pid name) = None
  \/ k_readlink K (proc_link pid name) = None ->
  fst (CheckSymLink K stack pid mountPoint name message) = false.
Proof.
  intros H. rewrite CheckSymLink_eq. cbv zeta.
  rewrite ReadSymLink_none by now rewrite cstr_proc_link.
  reflexivity.
Qed.

Lemma holds_all_fail K stack pid mountPoint :
  k_opendir K (fd_dir pid) = None ->
  k_fopen K (maps pid) = None ->
  k_lstat K (proc_link pid (lit "cwd")) = None ->
  k_lstat K (proc_link pid (lit "root")) = None ->
  k_lstat K (proc_link pid (lit "exe")) = None ->
  holds K stack pid mountPoint
  = (false, [EvOpendir (fd_dir pid); EvFopen (maps pid);
             EvLstat (proc_link pid (lit "cwd"));
             EvLstat (proc_link pid (lit "root"));
             EvLstat (proc_link pid (lit "exe"))]).
Proof.
  intros Hd Hm Hc Hr He. unfold holds.
  rewrite CheckFileDescriptorSymLinks_no_dir, CheckFileMaps_no_file by assumption.
  rewrite !CheckSymLink_eq. cbv zeta.
  rewrite !ReadSymLink_lstat_fails by now rewrite cstr_proc_link.
  rewrite !cstr_proc_link. reflexivity.
Qed.

(** * No probe sends a signal *)

Lemma signals_app t1 t2 : signals (t1 ++ t2) = signals t1 ++ signals t2.
Proof. apply flat_map_app. Qed.

Lemma signals_bind {A B} (m : IO A) (f : A -> IO B) :
  signals (snd (bind m f)) = signals (snd m) ++ signals (snd (f (fst m))).
Proof. now rewrite snd_bind, signals_app. Qed.

Lemma signals_cons e t : signals (e :: t) = signal_of e ++ signals t.
Proof. reflexivity. Qed.

Lemma signals_nil : signals [] = [].
Proof. reflexivity. Qed.

Ltac sig_step :=
  repeat first
    [ rewrite signals_bind | rewrite fst_bind
    | rewrite signals_app | rewrite signals_cons
    | rewrite signals_nil | progress cbn [emit ret kill fst snd signal_of app] ].

Lemma store_quiet a i c : signals (snd (store a i c)) = [].
Proof.
  unfold store. now destruct ((0 <=? i) && (i <? Z.of_nat (List.length a))).
Qed.

Lemma ReadSymLink_quiet K path link :
  signals (snd (ReadSymLink K path link)) = [].
Proof.
  rewrite ReadSymLink_eq.
  destruct (k_lstat K (cstr path)) as [m|]; [|reflexivity].
  destruct (negb (Z.land m S_IFMT =? S_IFLNK)); [reflexivity|].
  destruct (k_readlink K (cstr path)) as [t|]; [|reflexivity].
  cbv zeta. destruct (Z.of_nat _ <=? 0); [reflexivity|].
  sig_step. apply store_quiet.
Qed.

Lemma GetProcessName_quiet K pid buffer :
  signals (snd (GetProcessName K pid buffer)) = [].
Proof.
  rewrite GetProcessName_eq. cbv zeta.
  destruct (k_open K (cmdline pid)) as [[|data]|]; try reflexivity.
  sig_step. now rewrite store_quiet.
Qed.

Lemma fd_loop_quiet K stack pid mountPoint dirname parent dir link fileOpen :
  signals (snd (fd_loop K stack pid mountPoint dirname parent dir link fileOpen)) = [].
Proof.
  revert link fileOpen. induction dir as [|d_name dir IH]; intros link fileOpen;
    cbn [fd_loop]; sig_step; [reflexivity|].
  destruct fileOpen; [reflexivity|].
  destruct ((strcmp d_name (lit ".") =? 0) || (strcmp d_name (lit "..") =? 0));
    [apply IH|].
  sig_step. rewrite ReadSymLink_quiet.
  destruct (ReadSymLink K (parent ++ cstr d_name) link) as [[islink link'] t].
  cbn [fst snd app].
  destruct (islink && PathMatchesMountPoint link' mountPoint); [|apply IH].
  sig_step. rewrite GetProcessName_quiet. apply IH.
Qed.

Lemma CheckFileDescriptorSymLinks_quiet K stack pid mountPoint :
  signals (snd (CheckFileDescriptorSymLinks K stack pid mountPoint)) = [].
Proof.
  unfold CheckFileDescriptorSymLinks, opendir. sig_step.
  destruct (k_opendir K _); [|reflexivity].
  sig_step. now rewrite fd_loop_quiet.
Qed.

Lemma maps_loop_quiet K stack fuel pid mountPoint filename file mapOpen :
  signals (snd (maps_loop K stack fuel pid mountPoint filename file mapOpen)) = [].
Proof.
  revert file mapOpen. induction fuel as [|fuel IH]; intros file mapOpen;
    cbn [maps_loop]; [reflexivity|].
  destruct mapOpen; [reflexivity|].
  unfold fgets. sig_step.
  destruct (read_fgets (PATH_MAX + 100) file) as [[buffer file']|]; [|reflexivity].
  destruct (strchr buffer slash) as [path|]; [|apply IH].
  destruct (PathMatchesMountPoint path mountPoint); [|apply IH].
  sig_step. rewrite GetProcessName_quiet. apply IH.
Qed.

Lemma CheckFileMaps_quiet K stack pid mountPoint :
  signals (snd (CheckFileMaps K stack pid mountPoint)) = [].
Proof.
  unfold CheckFileMaps, fopen. sig_step.
  destruct (k_fopen K _); [|reflexivity].
  sig_step. now rewrite maps_loop_quiet.
Qed.

Lemma CheckSymLink_quiet K stack pid mountPoint name message :
  signals (snd (CheckSymLink K stack pid mountPoint name message)) = [].
Proof.
  unfold CheckSymLink. sig_step. rewrite ReadSymLink_quiet.
  destruct (ReadSymLink K _ _) as [[islink link] t]. cbn [fst snd app].
  destruct (islink && PathMatchesMountPoint link mountPoint); [|reflexivity].
  sig_step. now rewrite GetProcessName_quiet.
Qed.

Lemma orelse_quiet (a b : IO bool) :
  signals (snd a) = [] -> signals (snd b) = [] -> signals (snd (a ||| b)) = [].
Proof.
  intros Ha Hb. rewrite snd_orelse, signals_app, Ha.
  destruct (fst a); [reflexivity | exact Hb].
Qed.

Lemma holds_quiet K stack pid mountPoint :
  signals (snd (holds K stack pid mountPoint)) = [].
Proof.
  unfold holds.
  repeat apply orelse_quiet;
    auto using CheckFileDescriptorSymLinks_quiet, CheckFileMaps_quiet,
               CheckSymLink_quiet.
Qed.

(** * The scan of /proc *)

Lemma proc_loop_trace K stack mountPoint action dir :
  snd (proc_loop K stack mountPoint action dir)
  = flat_map (fun d_name =>
                EvReaddir (lit "/proc")
                :: snd (scan_entry K stack mountPoint action d_name)) dir
    ++ [EvReaddir (lit "/proc")].
Proof.
  induction dir as [|d_name dir IH]; cbn [proc_loop flat_map]; io_step;
    [reflexivity|].
  rewrite IH, <- app_assoc. reflexivity.
Qed.

Lemma KillProcessesWithOpenFiles_trace K stack mountPoint action :
  snd (KillProcessesWithOpenFiles K stack mountPoint action)
  = EvOpendir (lit "/proc")
    :: match k_opendir K (lit "/proc") with
       | None => []
       | Some dir =>
           flat_map (fun d_name =>
                       EvReaddir (lit "/proc")
                       :: snd (scan_entry K stack mountPoint action d_name)) dir
           ++ [EvReaddir (lit "/proc"); EvClosedir (lit "/proc")]
       end.
Proof.
  unfold KillProcessesWithOpenFiles, opendir. io_step.
  change (cstr (lit "/proc")) with (lit "/proc").
  destruct (k_opendir K (lit "/proc")) as [dir|]; [|reflexivity].
  io_step. rewrite proc_loop_trace, <- app_assoc. reflexivity.
Qed.

Lemma act_signals action pid :
  signals (snd (act action pid))
  = if action =? 1 then [(pid, SIGTERM)]
    else if action =? 2 then [(pid, SIGKILL)]
    else [].
Proof.
  unfold act. destruct (action =? 1); [reflexivity|].
  destruct (action =? 2); reflexivity.
Qed.

Lemma scan_entry_trace K stack mountPoint action d_name :
  snd (scan_entry K stack mountPoint action d_name)
  = probing K stack mountPoint d_name
    ++ (if negb (get_pid d_name =? -1)
           && fst (holds K stack (get_pid d_name) mountPoint)
        then snd (act action (get_pid d_name)) else []).
Proof.
  unfold scan_entry, probing. destruct (get_pid d_name =? -1); [reflexivity|].
  io_step. cbn [negb andb]. now destruct (fst (holds _ _ _ _)).
Qed.

Lemma probing_quiet K stack mountPoint d_name :
  signals (probing K stack mountPoint d_name) = [].
Proof.
  unfold probing. destruct (get_pid d_name =? -1); [reflexivity|].
  apply holds_quiet.
Qed.

Lemma scan_signals K stack mountPoint action dir :
  signals (flat_map (fun d_name =>
                       EvReaddir (lit "/proc")
                       :: snd (scan_entry K stack mountPoint action d_name)) dir)
  = flat_map (fun pid => signals (snd (act action pid)))
             (holders K stack mountPoint dir).
Proof.
  unfold holders.
  induction dir as [|d_name dir IH]; [reflexivity|].
  cbn [flat_map map filter]. rewrite signals_app, signals_cons, IH.
  rewrite scan_entry_trace, signals_app, probing_quiet.
  cbn [signal_of app].
  destruct (negb (get_pid d_name =? -1)
            && fst (holds K stack (get_pid d_name) mountPoint));
    reflexivity.
Qed.

Lemma KillProcessesWithOpenFiles_signals K stack mountPoint action :
  signals (snd (KillProcessesWithOpenFiles K stack mountPoint action))
  = flat_map (fun pid => signals (snd (act action pid)))
      match k_opendir K (lit "/proc") with
      | Some dir => holders K stack mountPoint dir
      | None => []
      end.
Proof.
  rewrite KillProcessesWithOpenFiles_trace, signals_cons.
  cbn [signal_of app].
  destruct (k_opendir K (lit "/proc")) as [dir|]; [|reflexivity].
  rewrite signals_app, scan_signals. cbn. apply app_nil_r.
Qed.

(** C3.  With [found] the pids of /proc that are found holding, in the
    order of enumeration: action 0 delivers no signal, action 1 sends
    SIGTERM to each of them (not SIGHUP, though the log record written just
    before says so), action 2 sends SIGKILL to each of them; nobody else
    receives anything. *)
Theorem signals_by_action K stack mountPoint :
  let found := match k_opendir K (lit "/proc") with
               | Some dir => holders K stack mountPoint dir
               | None => []
               end in
  signals (snd (KillProcessesWithOpenFiles K stack mountPoint 0)) = []
  /\ signals (snd (KillProcessesWithOpenFiles K stack mountPoint 1))
     = map (fun pid => (pid, SIGTERM)) found
  /\ signals (snd (KillProcessesWithOpenFiles K stack mountPoint 2))
     = map (fun pid => (pid, SIGKILL)) found
  /\ SIGTERM <> SIGHUP
  /\ (forall pid,
        snd (act 1 pid)
        = [EvLog LOG_WARN "Sending SIGHUP to process %d" [AInt pid];
           EvKill pid SIGTERM]).
Proof.
  cbv zeta. rewrite !KillProcessesWithOpenFiles_signals.
  generalize (match k_opendir K (lit "/proc") with
              | Some dir => holders K stack mountPoint dir
              | None => []
              end).
  intros found.
  split; [|split; [|split; [|split; [discriminate | reflexivity]]]];
    induction found as [|p l IH]; try reflexivity;
    cbn [flat_map map]; rewrite act_signals, IH; reflexivity.
Qed.

(** C10.  For an action other than 1 and 2 (0, 3, -1, ...) no signal is
    delivered, whoever is found holding: the run is the enumeration of
    /proc with, for each pid, what its probes do, and nothing more. *)
Theorem other_actions_send_nothing K stack mountPoint action :
  action <> 1 -> action <> 2 ->
  signals (snd (KillProcessesWithOpenFiles K stack mountPoint action)) = []
  /\ snd (KillProcessesWithOpenFiles K stack mountPoint action)
     = scan_trace K stack mountPoint.
Proof.
  intros H1 H2.
  assert (A : forall pid, act action pid = ret tt).
  { intros pid. unfold act.
    apply Z.eqb_neq in H1, H2. now rewrite H1, H2. }
  split.
  - rewrite KillProcessesWithOpenFiles_signals.
    generalize (match k_opendir K (lit "/proc") with
                | Some dir => holders K stack mountPoint dir
                | None => []
                end).
    intros found. induction found as [|p l IH]; [reflexivity|].
    cbn [flat_map]. now rewrite A, IH.
  - rewrite KillProcessesWithOpenFiles_trace. unfold scan_trace. f_equal.
    destruct (k_opendir K (lit "/proc")) as [dir|]; [|reflexivity].
    f_equal. induction dir as [|d_name dir IH]; [reflexivity|].
    cbn [flat_map]. rewrite IH, scan_entry_trace, A. cbn [ret snd].
    destruct (negb _ && _); now rewrite app_nil_r.
Qed.

(** Action 3 on a process that is holding. *)
Lemma other_actions_send_nothing_witness :
  let K := cwd_inside (Some (ReadData (lit "/system/bin/sh" ++ [NUL]))) in
  3 <> 1 /\ 3 <> 2
  /\ fst (holds K [] 1 (lit "/mnt/vol")) = true
  /\ signals (snd (KillProcessesWithOpenFiles K [] (lit "/mnt/vol") 3)) = []
  /\ snd (KillProcessesWithOpenFiles K [] (lit "/mnt/vol") 3)
     = scan_trace K [] (lit "/mnt/vol").
Proof.
  cbv zeta. split; [discriminate|]. split; [discriminate|].
  split; [vm_compute; reflexivity|].
  apply other_actions_send_nothing; discriminate.
Defined.

(** * Failures do not stop the scan *)

(** C7.  A failure of a call on a per-process path makes the probe say
    "does not hold", and the scan goes on: a missing fd directory, an
    unopenable maps file, a symlink that has vanished (for cwd, root, exe,
    and for a descriptor, where the loop goes on with the next entry); a
    process for which everything fails is not signalled, and the next entry
    of /proc is scanned whatever happened to this one.  The only early
    return is on a /proc that cannot be opened: then nothing is probed and
    nothing is sent; otherwise every entry is looked at and the directory
    is closed. *)
Theorem io_failures_absorbed K stack mountPoint action :
  (forall pid,
      k_opendir K (fd_dir pid) = None ->
      CheckFileDescriptorSymLinks K stack pid mountPoint
      = (false, [EvOpendir (fd_dir pid)]))
  /\ (forall pid,
        k_fopen K (maps pid) = None ->
        CheckFileMaps K stack pid mountPoint = (false, [EvFopen (maps pid)]))
  /\ (forall pid name message,
        k_lstat K (proc_link pid name) = None
        \/ k_readlink K (proc_link pid name) = None ->
        fst (CheckSymLink K stack pid mountPoint name message) = false)
  /\ (forall pid dirname parent d_name dir link,
        k_lstat K (cstr (parent ++ cstr d_name)) = None
        \/ k_readlink K (cstr (parent ++ cstr d_name)) = None ->
        exists t,
          fd_loop K stack pid mountPoint dirname parent (d_name :: dir) link false
          = (fst (fd_loop K stack pid mountPoint dirname parent dir link false),
             EvReaddir dirname :: t
             ++ snd (fd_loop K stack pid mountPoint dirname parent dir link false))
          /\ signals t = [])
  /\ (forall pid,
        k_opendir K (fd_dir pid) = None ->
        k_fopen K (maps pid) = None ->
        k_lstat K (proc_link pid (lit "cwd")) = None ->
        k_lstat K (proc_link pid (lit "root")) = None ->
        k_lstat K (proc_link pid (lit "exe")) = None ->
        fst (holds K stack pid mountPoint) = false)
  /\ (forall d_name dir,
        snd (proc_loop K stack mountPoint action (d_name :: dir))
        = EvReaddir (lit "/proc")
          :: snd (scan_entry K stack mountPoint action d_name)
          ++ snd (proc_loop K stack mountPoint action dir))
  /\ (forall d_name,
        fst (holds K stack (get_pid d_name) mountPoint) = false ->
        signals (snd (scan_entry K stack mountPoint action d_name)) = [])
  /\ (k_opendir K (lit "/proc") = None ->
      KillProcessesWithOpenFiles K stack mountPoint action
      = (tt, [EvOpendir (lit "/proc")]))
  /\ (forall dir,
        k_opendir K (lit "/proc") = Some dir ->
        snd (KillProcessesWithOpenFiles K stack mountPoint action)
        = EvOpendir (lit "/proc")
          :: flat_map (fun d_name =>
                         EvReaddir (lit "/proc")
                         :: snd (scan_entry K stack mountPoint action d_name)) dir
          ++ [EvReaddir (lit "/proc"); EvClosedir (lit "/proc")]).
Proof.
  repeat match goal with |- _ /\ _ => split end.
  - intros pid. apply CheckFileDescriptorSymLinks_no_dir.
  - intros pid. apply CheckFileMaps_no_file.
  - intros pid name message. apply CheckSymLink_none.
  - intros pid dirname parent d_name dir link H.
    pose proof (ReadSymLink_none K (parent ++ cstr d_name) link H) as E.
    pose proof (ReadSymLink_quiet K (parent ++ cstr d_name) link) as Q.
    pose proof (fd_loop_next K stack pid mountPoint dirname parent d_name dir link) as N.
    cbv zeta in N. rewrite E in N. cbn [fst snd andb] in N.
    specialize (N eq_refl).
    destruct ((strcmp d_name (lit ".") =? 0) || (strcmp d_name (lit "..") =? 0)).
    + exists []. split; [exact N | reflexivity].
    + exists (snd (ReadSymLink K (parent ++ cstr d_name) link)).
      split; [exact N | exact Q].
  - intros pid Hd Hm Hc Hr He. now rewrite holds_all_fail.
  - intros d_name dir. cbn [proc_loop]. io_step. reflexivity.
  - intros d_name H. rewrite scan_entry_trace, signals_app, probing_quiet, H.
    now rewrite andb_false_r.
  - intros H. unfold KillProcessesWithOpenFiles, opendir. io_step.
    change (cstr (lit "/proc")) with (lit "/proc"). now rewrite H.
  - intros dir H. now rewrite KillProcessesWithOpenFiles_trace, H.
Qed.

(** A process that vanished after it was listed, and a /proc that does not open. *)
Lemma io_failures_absorbed_witness :
  (k_opendir vanishing (fd_dir 1) = None
   /\ CheckFileDescriptorSymLinks vanishing [] 1 (lit "/mnt/vol")
      = (false, [EvOpendir (fd_dir 1)]))
  /\ (k_fopen vanishing (maps 1) = None
      /\ CheckFileMaps vanishing [] 1 (lit "/mnt/vol")
         = (false, [EvFopen (maps 1)]))
  /\ (k_lstat vanishing (proc_link 1 (lit "cwd")) = None
      /\ fst (CheckSymLink vanishing [] 1 (lit "/mnt/vol") (lit "cwd")
                (lit "working directory")) = false)
  /\ (k_opendir absent (lit "/proc") = None
      /\ KillProcessesWithOpenFiles absent [] (lit "/mnt/vol") 2
         = (tt, [EvOpendir (lit "/proc")]))
  /\ (k_opendir vanishing (lit "/proc") = Some [lit "1"; lit "self"]
      /\ snd (KillProcessesWithOpenFiles vanishing [] (lit "/mnt/vol") 2)
         = EvOpendir (lit "/proc")
           :: flat_map (fun d_name =>
                          EvReaddir (lit "/proc")
                          :: snd (scan_entry vanishing [] (lit "/mnt/vol") 2 d_name))
                       [lit "1"; lit "self"]
           ++ [EvReaddir (lit "/proc"); EvClosedir (lit "/proc")]).
Proof.
  pose proof (io_failures_absorbed vanishing [] (lit "/mnt/vol") 2)
    as (A & B & C & _ & _ & _ & _ & _ & E).
  pose proof (io_failures_absorbed absent [] (lit "/mnt/vol") 2)
    as (_ & _ & _ & _ & _ & _ & _ & D & _).
  split; [split; [reflexivity | exact (A 1 eq_refl)]|].
  split; [split; [reflexivity | exact (B 1 eq_refl)]|].
  split; [split; [reflexivity|]|].
  { exact (C 1 (lit "cwd") (lit "working directory") (or_introl eq_refl)). }
  split; [split; [reflexivity | exact (D eq_refl)]|].
  split; [reflexivity | exact (E [lit "1"; lit "self"] eq_refl)].
Defined.

(** * The process name does not take part in the decision *)

Lemma decisions_app t1 t2 : decisions (t1 ++ t2) = decisions t1 ++ decisions t2.
Proof. apply filter_app. Qed.

Lemma decisions_cons e t :
  decisions (e :: t) = (if label_event e then [] else [e]) ++ decisions t.
Proof. unfold decisions. cbn [filter]. now destruct (label_event e). Qed.

Lemma decisions_nil : decisions [] = [].
Proof. reflexivity. Qed.

Lemma decisions_bind {A B} (m : IO A) (f : A -> IO B) :
  decisions (snd (bind m f))
  = decisions (snd m) ++ decisions (snd (f (fst m))).
Proof. now rewrite snd_bind, decisions_app. Qed.

Ltac dec_step :=
  repeat first
    [ rewrite decisions_bind | rewrite fst_bind
    | rewrite decisions_app | rewrite decisions_cons
    | rewrite decisions_nil
    | progress cbn [emit ret kill fst snd label_event app] ].

Lemma store_label a i c : decisions (snd (store a i c)) = [].
Proof.
  unfold store. now destruct ((0 <=? i) && (i <? Z.of_nat (List.length a))).
Qed.

Lemma GetProcessName_label K pid buffer :
  decisions (snd (GetProcessName K pid buffer)) = [].
Proof.
  rewrite GetProcessName_eq. cbv zeta.
  destruct (k_open K (cmdline pid)) as [[|data]|]; try reflexivity.
  dec_step. now rewrite store_label.
Qed.

Lemma unlabelled_app t1 t2 :
  unlabelled (t1 ++ t2) = unlabelled t1 && unlabelled t2.
Proof. apply forallb_app. Qed.

(** On an array of [PATH_MAX] bytes or more, [ReadSymLink] stores nothing
    outside, and leaves the array as long as it was. *)
Lemma ReadSymLink_shape K path link :
  (Z.to_nat PATH_MAX <= List.length link)%nat ->
  unlabelled (snd (ReadSymLink K path link)) = true
  /\ List.length (snd (fst (ReadSymLink K path link))) = List.length link.
Proof.
  intros L.
  destruct (k_lstat K (cstr path)) as [st_mode|] eqn:Hs.
  2:{ rewrite (ReadSymLink_lstat_fails _ _ _ Hs). split; reflexivity. }
  destruct (Z.eq_dec (Z.land st_mode S_IFMT) S_IFLNK) as [Hm|Hm].
  2:{ rewrite (ReadSymLink_not_a_link _ _ _ _ Hs Hm). split; reflexivity. }
  destruct (k_readlink K (cstr path)) as [[|c target]|] eqn:Hr.
  - rewrite (ReadSymLink_empty_target _ _ _ _ Hs Hm Hr). split; reflexivity.
  - rewrite (ReadSymLink_reads _ _ _ _ _ _ L Hs Hm Hr). cbn [fst snd].
    split; [reflexivity|].
    assert (P : (0 < Z.to_nat (PATH_MAX - 1))%nat) by (unfold PATH_MAX; lia).
    pose proof (length_firstn_cons _ c target P) as Hb.
    assert (Q : (Z.to_nat (PATH_MAX - 1) < Z.to_nat PATH_MAX)%nat)
      by (unfold PATH_MAX; lia).
    generalize dependent (firstn (Z.to_nat (PATH_MAX - 1)) (c :: target)).
    intros bytes Hb. rewrite length_app. cbn [List.length].
    rewrite length_skipn. lia.
  - rewrite (ReadSymLink_readlink_fails _ _ _ _ Hs Hm Hr). split; reflexivity.
Qed.

Lemma fd_loop_unmatched K stack pid mountPoint dirname parent dir link :
  (Z.to_nat PATH_MAX <= List.length link)%nat ->
  fst (fd_loop K stack pid mountPoint dirname parent dir link false) = false ->
  unlabelled (snd (fd_loop K stack pid mountPoint dirname parent dir link false))
  = true.
Proof.
  revert link. induction dir as [|d_name dir IH]; intros link L;
    cbn [fd_loop]; rewrite emit_bind; cbn [fst snd]; [reflexivity|].
  destruct ((strcmp d_name (lit ".") =? 0) || (strcmp d_name (lit "..") =? 0)).
  { intros H. now apply IH. }
  rewrite bind_eq.
  destruct (ReadSymLink_shape K (parent ++ cstr d_name) link L) as [U Len].
  destruct (ReadSymLink K (parent ++ cstr d_name) link) as [[islink link'] t].
  cbn [fst snd] in *.
  destruct (islink && PathMatchesMountPoint link' mountPoint).
  - rewrite !fst_bind, fd_loop_found. discriminate.
  - intros H. change (unlabelled (?e :: ?x)) with (unlabelled x).
    rewrite unlabelled_app, U. cbn [andb]. apply IH; [lia | assumption].
Qed.

Lemma CheckFileDescriptorSymLinks_unmatched K stack pid mountPoint :
  fst (CheckFileDescriptorSymLinks K stack pid mountPoint) = false ->
  unlabelled (snd (CheckFileDescriptorSymLinks K stack pid mountPoint)) = true.
Proof.
  unfold CheckFileDescriptorSymLinks, opendir. rewrite !bind_eq.
  cbn [emit ret fst snd app].
  destruct (k_opendir K _) as [dir|]; [|reflexivity].
  rewrite !bind_eq. cbn [emit ret fst snd app]. intros H.
  change (unlabelled (?e :: ?x)) with (unlabelled x).
  rewrite unlabelled_app, fd_loop_unmatched; try assumption; [reflexivity|].
  rewrite length_char_array. lia.
Qed.

Lemma maps_loop_unmatched K stack fuel pid mountPoint filename file :
  fst (maps_loop K stack fuel pid mountPoint filename file false) = false ->
  unlabelled (snd (maps_loop K stack fuel pid mountPoint filename file false))
  = true.
Proof.
  revert file. induction fuel as [|fuel IH]; intros file; cbn [maps_loop];
    [reflexivity|].
  unfold fgets. rewrite !bind_eq. cbn [emit ret fst snd app].
  destruct (read_fgets (PATH_MAX + 100) file) as [[buffer file']|];
    [|reflexivity].
  change (unlabelled (?e :: ?x)) with (unlabelled x).
  destruct (strchr buffer slash) as [path|]; [|apply IH].
  destruct (PathMatchesMountPoint path mountPoint); [|apply IH].
  rewrite !fst_bind, maps_loop_found. discriminate.
Qed.

Lemma CheckFileMaps_unmatched K stack pid mountPoint :
  fst (CheckFileMaps K stack pid mountPoint) = false ->
  unlabelled (snd (CheckFileMaps K stack pid mountPoint)) = true.
Proof.
  unfold CheckFileMaps, fopen. rewrite !bind_eq.
  cbn [emit ret fst snd app].
  destruct (k_fopen K _) as [file|]; [|reflexivity].
  rewrite !bind_eq. cbn [emit ret fst snd app]. intros H.
  change (unlabelled (?e :: ?x)) with (unlabelled x).
  rewrite unlabelled_app, maps_loop_unmatched; [reflexivity | assumption].
Qed.

Lemma CheckSymLink_unmatched K stack pid mountPoint name message :
  fst (CheckSymLink K stack pid mountPoint name message) = false ->
  unlabelled (snd (CheckSymLink K stack pid mountPoint name message)) = true.
Proof.
  rewrite CheckSymLink_eq. cbv zeta.
  destruct (ReadSymLink_shape K (proc_link pid name) (char_array stack PATH_MAX))
    as [U _]; [rewrite length_char_array; lia|].
  destruct (_ && _); [discriminate|]. intros _. exact U.
Qed.

Lemma orelse_unmatched (a b : IO bool) :
  (fst a = false -> unlabelled (snd a) = true) ->
  (fst b = false -> unlabelled (snd b) = true) ->
  fst (a ||| b) = false -> unlabelled (snd (a ||| b)) = true.
Proof.
  intros Ha Hb. rewrite fst_orelse, snd_orelse, unlabelled_app.
  intros H. apply orb_false_elim in H. destruct H as [H1 H2].
  rewrite H1, Ha, Hb by assumption. reflexivity.
Qed.

Lemma holds_unmatched K stack pid mountPoint :
  fst (holds K stack pid mountPoint) = false ->
  unlabelled (snd (holds K stack pid mountPoint)) = true.
Proof.
  unfold holds.
  repeat apply orelse_unmatched;
    auto using CheckFileDescriptorSymLinks_unmatched, CheckFileMaps_unmatched,
               CheckSymLink_unmatched.
Qed.

Lemma agree_refl {A} (m : IO A) : agree m m.
Proof. split; reflexivity. Qed.

Lemma agree_bind {A B} (m1 m2 : IO A) (f1 f2 : A -> IO B) :
  agree m1 m2 -> (forall a, agree (f1 a) (f2 a)) ->
  agree (bind m1 f1) (bind m2 f2).
Proof.
  intros [E1 E2] H. unfold agree. rewrite !fst_bind, !decisions_bind, E1, E2.
  destruct (H (fst m2)) as [F1 F2]. now rewrite F1, F2.
Qed.

(** Two steps that decide nothing may return what they like: the runs
    agree when what follows does. *)
Lemma agree_skip {A1 A2 B} (m1 : IO A1) (m2 : IO A2) f1 f2 :
  decisions (snd m1) = [] -> decisions (snd m2) = [] ->
  (forall a1 a2, agree (f1 a1) (f2 a2 : IO B)) ->
  agree (bind m1 f1) (bind m2 f2).
Proof.
  intros E1 E2 H. unfold agree. rewrite !fst_bind, !decisions_bind, E1, E2.
  exact (H (fst m1) (fst m2)).
Qed.

Lemma agree_orelse (a1 b1 a2 b2 : IO bool) :
  agree a1 a2 -> agree b1 b2 -> agree (a1 ||| b1) (a2 ||| b2).
Proof.
  intros Ha Hb. unfold orelse. apply agree_bind; [exact Ha|].
  intros [|]; [apply agree_refl | exact Hb].
Qed.

Section SameButCmdline.

Variables K1 K2 : Kernel.
Hypothesis Same : same_but_cmdline K1 K2.

Variable stack : list ascii.
Variable pid : Z.
Variable mountPoint : cstring.

Lemma ReadSymLink_same path link :
  ReadSymLink K1 path link = ReadSymLink K2 path link.
Proof.
  destruct Same as (Hl & Hr & _ & _). now rewrite !ReadSymLink_eq, Hl, Hr.
Qed.

Lemma log_same prio fmt args1 args2 {B} (k1 k2 : IO B) :
  agree k1 k2 ->
  agree (emit (EvLog prio fmt args1) ;; k1) (emit (EvLog prio fmt args2) ;; k2).
Proof. intros H. apply agree_skip; try reflexivity. intros _ _. exact H. Qed.

Lemma fd_loop_same dirname parent dir link fileOpen :
  agree (fd_loop K1 stack pid mountPoint dirname parent dir link fileOpen)
        (fd_loop K2 stack pid mountPoint dirname parent dir link fileOpen).
Proof.
  revert link fileOpen.
  induction dir as [|d_name dir IH]; intros link fileOpen; cbn [fd_loop];
    (apply agree_bind; [apply agree_refl | intros _]); [apply agree_refl|].
  destruct fileOpen; [apply agree_refl|].
  destruct ((strcmp d_name (lit ".") =? 0) || (strcmp d_name (lit "..") =? 0));
    [apply IH|].
  rewrite ReadSymLink_same.
  apply agree_bind; [apply agree_refl | intros [islink link']].
  destruct (islink && PathMatchesMountPoint link' mountPoint); [|apply IH].
  apply agree_skip; try apply GetProcessName_label. intros name1 name2.
  apply log_same, IH.
Qed.

Lemma CheckFileDescriptorSymLinks_same :
  agree (CheckFileDescriptorSymLinks K1 stack pid mountPoint)
        (CheckFileDescriptorSymLinks K2 stack pid mountPoint).
Proof.
  unfold CheckFileDescriptorSymLinks, opendir.
  destruct Same as (_ & _ & Ho & _). rewrite Ho.
  apply agree_bind; [apply agree_refl | intros [dir|]]; [|apply agree_refl].
  apply agree_bind; [apply fd_loop_same | intros fileOpen]. apply agree_refl.
Qed.

Lemma maps_loop_same fuel filename file mapOpen :
  agree (maps_loop K1 stack fuel pid mountPoint filename file mapOpen)
        (maps_loop K2 stack fuel pid mountPoint filename file mapOpen).
Proof.
  revert file mapOpen.
  induction fuel as [|fuel IH]; intros file mapOpen; cbn [maps_loop];
    [apply agree_refl|].
  destruct mapOpen; [apply agree_refl|].
  apply agree_bind; [apply agree_refl | intros [[buffer file']|]];
    [|apply agree_refl].
  destruct (strchr buffer slash) as [path|]; [|apply IH].
  destruct (PathMatchesMountPoint path mountPoint); [|apply IH].
  apply agree_skip; try apply GetProcessName_label. intros name1 name2.
  apply log_same, IH.
Qed.

Lemma CheckFileMaps_same :
  agree (CheckFileMaps K1 stack pid mountPoint)
        (CheckFileMaps K2 stack pid mountPoint).
Proof.
  unfold CheckFileMaps, fopen.
  destruct Same as (_ & _ & _ & Hf). rewrite Hf.
  apply agree_bind; [apply agree_refl | intros [file|]]; [|apply agree_refl].
  apply agree_bind; [apply maps_loop_same | intros mapOpen]. apply agree_refl.
Qed.

Lemma CheckSymLink_same name message :
  agree (CheckSymLink K1 stack pid mountPoint name message)
        (CheckSymLink K2 stack pid mountPoint name message).
Proof.
  unfold CheckSymLink. rewrite ReadSymLink_same.
  apply agree_bind; [apply agree_refl | intros [islink link]].
  destruct (islink && PathMatchesMountPoint link mountPoint);
    [|apply agree_refl].
  apply agree_skip; try apply GetProcessName_label. intros name1 name2.
  apply log_same, agree_refl.
Qed.

Lemma holds_same :
  agree (holds K1 stack pid mountPoint) (holds K2 stack pid mountPoint).
Proof.
  unfold holds.
  repeat apply agree_orelse;
    auto using CheckFileDescriptorSymLinks_same, CheckFileMaps_same,
               CheckSymLink_same.
Qed.

End SameButCmdline.

Lemma holders_same K1 K2 stack mountPoint dir :
  same_but_cmdline K1 K2 ->
  holders K1 stack mountPoint dir = holders K2 stack mountPoint dir.
Proof.
  intros S. unfold holders. apply filter_ext. intros pid.
  now rewrite (proj1 (holds_same K1 K2 S stack pid mountPoint)).
Qed.

(** C9.  Two runs that differ only in what the command lines give (their
    content, a failing open, a failing read) agree on every probe and on
    the holding decision, in the value returned and in the calls made to
    decide, and on the signals sent.  A probe that does not match looks up
    no name and logs nothing: the name is only fetched once the match is
    decided. *)
Theorem label_independence K1 K2 stack pid mountPoint :
  same_but_cmdline K1 K2 ->
  Forall2 agree (probes K1 stack pid mountPoint) (probes K2 stack pid mountPoint)
  /\ agree (holds K1 stack pid mountPoint) (holds K2 stack pid mountPoint)
  /\ Forall (fun p => fst p = false -> unlabelled (snd p) = true)
            (probes K1 stack pid mountPoint)
  /\ (forall action,
        signals (snd (KillProcessesWithOpenFiles K1 stack mountPoint action))
        = signals (snd (KillProcessesWithOpenFiles K2 stack mountPoint action))).
Proof.
  intros S. split; [|split; [|split]].
  - unfold probes.
    repeat constructor;
      first [ apply CheckFileDescriptorSymLinks_same
            | apply CheckFileMaps_same
            | apply CheckSymLink_same ]; assumption.
  - now apply holds_same.
  - unfold probes.
    repeat constructor;
      auto using CheckFileDescriptorSymLinks_unmatched, CheckFileMaps_unmatched,
                 CheckSymLink_unmatched.
  - intros action. rewrite !KillProcessesWithOpenFiles_signals.
    destruct S as (Hl & Hr & Ho & Hf). rewrite Ho.
    destruct (k_opendir K2 (lit "/proc")) as [dir|]; [|reflexivity].
    rewrite (holders_same K1 K2) by (repeat split; assumption). reflexivity.
Qed.

(** The command line read in one run, failing to be read in the other. *)
Lemma label_independence_witness :
  let K1 := cwd_inside (Some (ReadData (lit "sh" ++ [NUL] ++ lit "-c"))) in
  let K2 := cwd_inside (Some ReadFails) in
  same_but_cmdline K1 K2
  /\ agree (holds K1 [] 1 (lit "/mnt/vol")) (holds K2 [] 1 (lit "/mnt/vol")).
Proof.
  cbv zeta.
  assert (S : same_but_cmdline
                (cwd_inside (Some (ReadData (lit "sh" ++ [NUL] ++ lit "-c"))))
                (cwd_inside (Some ReadFails)))
    by (repeat split; intros path; reflexivity).
  split; [exact S|].
  exact (proj1 (proj2 (label_independence _ _ [] 1 (lit "/mnt/vol") S))).
Defined.

(** * Runs on concrete kernels *)

(** S3: a process whose working directory is below the mount point gets
    SIGTERM under action 1, SIGKILL under action 2, nothing under 0. *)
Example cwd_inside_signalled :
  let K := cwd_inside (Some (ReadData (lit "/system/bin/sh" ++ [NUL]))) in
  signals (snd (KillProcessesWithOpenFiles K [] (lit "/mnt/vol") 1))
  = [(1, SIGTERM)]
  /\ signals (snd (KillProcessesWithOpenFiles K [] (lit "/mnt/vol") 2))
     = [(1, SIGKILL)]
  /\ signals (snd (KillProcessesWithOpenFiles K [] (lit "/mnt/vol") 0)) = [].
Proof. repeat split; vm_compute; reflexivity. Qed.

(** S6 and S2: nobody is signalled for the mount point "/", nor for a
    mount point that is only a prefix of the name. *)
Example root_and_prefix_guard :
  let K := cwd_inside (Some (ReadData (lit "/system/bin/sh" ++ [NUL]))) in
  signals (snd (KillProcessesWithOpenFiles K [] (lit "/") 2)) = []
  /\ signals (snd (KillProcessesWithOpenFiles K [] (lit "/mnt/vo") 2)) = [].
Proof. split; vm_compute; reflexivity. Qed.

(** The log record of the match carries the name read from the command
    line, cut at its first NUL. *)
Example cwd_inside_log :
  let K := cwd_inside (Some (ReadData (lit "sh" ++ [NUL] ++ lit "-c"))) in
  snd (CheckSymLink K [] 1 (lit "/mnt/vol") (lit "cwd") (lit "working directory"))
  = [EvLstat (lit "/proc/1/cwd"); EvReadlink (lit "/proc/1/cwd");
     EvOpen (lit "/proc/1/cmdline"); EvRead (lit "/proc/1/cmdline");
     EvClose (lit "/proc/1/cmdline");
     EvLog LOG_WARN "Process %s (%d) has %s in %s"
       [AStr (lit "sh"); AInt 1; AStr (lit "working directory");
        AStr (lit "/mnt/vol")]].
Proof. vm_compute. reflexivity. Qed.

(** S1: an open file below the mount point.  The loop skips "." and "..",
    resolves descriptor 0, stops at descriptor 3, and calls [readdir] once
    more before it leaves. *)
Example open_file_inside :
  CheckFileDescriptorSymLinks fd_inside [] 1 (lit "/mnt/vol")
  = (true,
     [EvOpendir (lit "/proc/1/fd");
      EvReaddir (lit "/proc/1/fd"); EvReaddir (lit "/proc/1/fd");
      EvReaddir (lit "/proc/1/fd");
      EvLstat (lit "/proc/1/fd/0"); EvReadlink (lit "/proc/1/fd/0");
      EvReaddir (lit "/proc/1/fd");
      EvLstat (lit "/proc/1/fd/3"); EvReadlink (lit "/proc/1/fd/3");
      EvOpen (lit "/proc/1/cmdline"); EvRead (lit "/proc/1/cmdline");
      EvClose (lit "/proc/1/cmdline");
      EvLog LOG_ERROR "Process %s (%d) has open file %s"
        [AStr (lit "/system/bin/app"); AInt 1; AStr (lit "/mnt/vol/data.bin")];
      EvReaddir (lit "/proc/1/fd");
      EvClosedir (lit "/proc/1/fd")])
  /\ signals (snd (KillProcessesWithOpenFiles fd_inside [] (lit "/mnt/vol") 2))
     = [(1, SIGKILL)]
  /\ signals (snd (KillProcessesWithOpenFiles fd_inside [] (lit "/mnt/vo") 2))
     = [].
Proof. repeat split; vm_compute; reflexivity. Qed.

(** S4: a library mapped from below the mount point, action 0: a log
    record and no signal.  The path in the record runs to the end of the
    line. *)
Example mapped_library :
  CheckFileMaps lib_mapped [] 1 (lit "/mnt/vol")
  = (true,
     [EvFopen (lit "/proc/1/maps");
      EvFgets (lit "/proc/1/maps"); EvFgets (lit "/proc/1/maps");
      EvFgets (lit "/proc/1/maps");
      EvOpen (lit "/proc/1/cmdline"); EvRead (lit "/proc/1/cmdline");
      EvClose (lit "/proc/1/cmdline");
      EvLog LOG_ERROR "process %s (%d) has open file map for %s"
        [AStr (lit "app_process"); AInt 1;
         AStr (lit "/mnt/vol/lib.so" ++ [newline])];
      EvFclose (lit "/proc/1/maps")])
  /\ signals (snd (KillProcessesWithOpenFiles lib_mapped [] (lit "/mnt/vol") 0))
     = [].
Proof. split; vm_compute; reflexivity. Qed.

(** Names as /proc has them. *)
Example get_pid_names :
  get_pid (lit "1") = 1 /\ get_pid (lit "4194304") = 4194304
  /\ get_pid (lit "self") = -1 /\ get_pid (lit "12a") = -1
  /\ get_pid (lit "-1") = -1.
Proof. repeat split; reflexivity. Qed.

(** * Further properties of PathMatchesMountPoint *)

Lemma starts_with_iff c m :
  starts_with c m = true <-> exists r, c = m ++ r.
Proof.
  revert c. induction m as [|x m IH]; intros c; cbn [starts_with].
  - split; [intros _; now exists c | reflexivity].
  - destruct c as [|y c].
    + split; [discriminate | intros [r H]; discriminate].
    + rewrite andb_true_iff, Ascii.eqb_eq, IH. split.
      * intros [-> [r ->]]. now exists r.
      * intros [r [= -> ->]]. split; [reflexivity | now exists r].
Qed.

(** The contract read as a proposition: the candidate is the mount point
    followed by [r], and [r] is empty or begins with '/' unless the mount
    point already ends with '/'. *)
Lemma matches_spec_iff c m :
  matches_spec c m = true
  <-> (2 <= List.length m)%nat
      /\ exists r, c = m ++ r
                   /\ (ends_with_slash m = true \/ r = [] \/ hd_error r = Some slash).
Proof.
  unfold matches_spec.
  destruct (Nat.leb_spec (List.length m) 1) as [H|H].
  { split; [discriminate | intros [H2 _]; lia]. }
  destruct (starts_with c m) eqn:Hs; cbn [negb].
  2:{ split; [discriminate|]. intros (_ & r & -> & _).
      rewrite starts_with_app in Hs. discriminate. }
  apply starts_with_iff in Hs. destruct Hs as [r ->].
  rewrite nth_error_app2, Nat.sub_diag by lia.
  assert (U : forall r', m ++ r = m ++ r' -> r' = r)
    by (intros r' E; now apply app_inv_head in E).
  destruct (ends_with_slash m).
  { split; [|reflexivity]. intros _. split; [lia|]. exists r. auto. }
  destruct r as [|x r]; cbn [nth_error].
  - split; [|reflexivity]. intros _. split; [lia|]. exists []. auto.
  - split.
    + intros E. apply Ascii.eqb_eq in E. subst x. split; [lia|].
      exists (slash :: r). auto.
    + intros (_ & r' & E & [D|[D|D]]); try discriminate.
      * apply U in E. subst r'. discriminate.
      * apply U in E. subst r'. cbn in D. injection D as ->.
        apply Ascii.eqb_refl.
Qed.

Lemma PathMatchesMountPoint_iff path mountPoint :
  Z.of_nat (strlen mountPoint) <= INT_MAX ->
  PathMatchesMountPoint path mountPoint = true
  <-> (2 <= strlen mountPoint)%nat
      /\ exists r, cstr path = cstr mountPoint ++ r
                   /\ (ends_with_slash (cstr mountPoint) = true
                       \/ r = [] \/ hd_error r = Some slash).
Proof.
  intros H. rewrite PathMatchesMountPoint_eq, matches_spec_iff, length_cstr by assumption.
  reflexivity.
Qed.

(** X1.  Mount points nest: when [inner] lies within [outer] and a path
    lies within [inner], the path lies within [outer] (both mount points
    of a length that fits an [int]). *)
Theorem PathMatchesMountPoint_nested path inner outer :
  Z.of_nat (strlen inner) <= INT_MAX ->
  Z.of_nat (strlen outer) <= INT_MAX ->
  PathMatchesMountPoint inner outer = true ->
  PathMatchesMountPoint path inner = true ->
  PathMatchesMountPoint path outer = true.
Proof.
  intros Fi Fo Hio Hpi.
  apply PathMatchesMountPoint_iff in Hio; [|assumption].
  apply PathMatchesMountPoint_iff in Hpi; [|assumption].
  apply PathMatchesMountPoint_iff; [assumption|].
  destruct Hio as (L & r1 & E1 & B1). destruct Hpi as (_ & r2 & E2 & B2).
  split; [exact L|]. exists (r1 ++ r2).
  split; [now rewrite E2, E1, app_assoc|].
  destruct B1 as [B1|[B1|B1]]; [now left| |].
  - subst r1. rewrite app_nil_r in E1. rewrite E1 in B2. exact B2.
  - right. right. destruct r1; [discriminate | exact B1].
Qed.

(** A file below /mnt/vol/sub is below /mnt/vol. *)
Lemma PathMatchesMountPoint_nested_witness :
  Z.of_nat (strlen (lit "/mnt/vol/sub")) <= INT_MAX
  /\ Z.of_nat (strlen (lit "/mnt/vol")) <= INT_MAX
  /\ PathMatchesMountPoint (lit "/mnt/vol/sub") (lit "/mnt/vol") = true
  /\ PathMatchesMountPoint (lit "/mnt/vol/sub/a.bin") (lit "/mnt/vol/sub") = true
  /\ PathMatchesMountPoint (lit "/mnt/vol/sub/a.bin") (lit "/mnt/vol") = true.
Proof.
  split; [vm_compute; discriminate|]. split; [vm_compute; discriminate|].
  split; [reflexivity|]. split; [reflexivity|].
  apply (PathMatchesMountPoint_nested _ (lit "/mnt/vol/sub"));
    solve [vm_compute; discriminate | reflexivity].
Defined.

Lemma ends_with_slash_app m : ends_with_slash (m ++ [slash]) = true.
Proof.
  unfold ends_with_slash. rewrite rev_app_distr. reflexivity.
Qed.

(** X2.  A trailing '/' on the mount point only excludes the mount point
    itself: for a mount point [m] of two bytes or more that does not end
    with '/', a path matches "m/" exactly when it matches [m] and is not
    [m]. *)
Theorem PathMatchesMountPoint_trailing_slash path mountPoint :
  (2 <= strlen mountPoint)%nat ->
  Z.of_nat (strlen mountPoint) < INT_MAX ->
  ends_with_slash (cstr mountPoint) = false ->
  PathMatchesMountPoint path (cstr mountPoint ++ [slash]) = true
  <-> PathMatchesMountPoint path mountPoint = true
      /\ cstr path <> cstr mountPoint.
Proof.
  intros L F E.
  assert (C : cstr (cstr mountPoint ++ [slash]) = cstr mountPoint ++ [slash]).
  { rewrite cstr_app by apply cstr_no_nul. reflexivity. }
  assert (S' : strlen (cstr mountPoint ++ [slash]) = S (strlen mountPoint)).
  { rewrite <- length_cstr, C, length_app, length_cstr. simpl. lia. }
  rewrite !PathMatchesMountPoint_iff by (rewrite ?S'; lia).
  rewrite C, S', E. split.
  - intros (_ & r & Hp & _). rewrite <- app_assoc in Hp. split.
    + split; [exact L|]. exists ([slash] ++ r). split; [exact Hp|].
      right. right. reflexivity.
    + rewrite Hp. intros N. rewrite <- (app_nil_r (cstr mountPoint)) in N at 2.
      apply app_inv_head in N. discriminate.
  - intros [(_ & r & Hp & [B|[B|B]]) N]; [discriminate| |].
    + subst r. rewrite app_nil_r in Hp. contradiction.
    + destruct r as [|x r]; [discriminate|]. injection B as ->.
      split; [lia|]. exists r. split.
      * now rewrite <- app_assoc.
      * left. apply ends_with_slash_app.
Qed.

(** The mount point "/a/b", with and without the slash. *)
Lemma PathMatchesMountPoint_trailing_slash_witness :
  (2 <= strlen (lit "/a/b"))%nat
  /\ Z.of_nat (strlen (lit "/a/b")) < INT_MAX
  /\ ends_with_slash (cstr (lit "/a/b")) = false
  /\ (PathMatchesMountPoint (lit "/a/b/x") (cstr (lit "/a/b") ++ [slash]) = true
      <-> PathMatchesMountPoint (lit "/a/b/x") (lit "/a/b") = true
          /\ cstr (lit "/a/b/x") <> cstr (lit "/a/b")).
Proof.
  split; [vm_compute; lia|]. split; [vm_compute; reflexivity|].
  split; [reflexivity|].
  apply (PathMatchesMountPoint_trailing_slash (lit "/a/b/x") (lit "/a/b")).
  - vm_compute. lia.
  - vm_compute. reflexivity.
  - reflexivity.
Defined.

(** * get_pid and the "%d" of the paths *)

Lemma decimal_uint_acc d acc :
  fold_left (fun a c => 10 * a + digit_value c)
            (lit (DecimalString.NilEmpty.string_of_uint d)) (Z.pos acc)
  = Z.pos (Pos.of_uint_acc d acc).
Proof.
  unfold lit. revert acc.
  induction d; intros acc; cbn [DecimalString.NilEmpty.string_of_uint
                                  list_ascii_of_string fold_left Pos.of_uint_acc];
    try reflexivity;
    match goal with
    | |- fold_left _ _ (10 * Z.pos acc + digit_value ?c) = _ =>
        change (digit_value c) with (code c - 48);
        let v := eval vm_compute in (code c) in change (code c) with v
    end;
    rewrite <- IHd; f_equal; lia.
Qed.

Lemma decimal_uint d :
  decimal (lit (DecimalString.NilEmpty.string_of_uint d)) = Z.of_N (Pos.of_uint d).
Proof.
  unfold decimal, lit.
  induction d; cbn [DecimalString.NilEmpty.string_of_uint
                      list_ascii_of_string fold_left Pos.of_uint];
    try reflexivity; try exact IHd;
    match goal with
    | |- fold_left _ _ (10 * 0 + digit_value ?c) = _ =>
        let v := eval vm_compute in (10 * 0 + digit_value c) in
        change (10 * 0 + digit_value c) with v
    end;
    apply (decimal_uint_acc d).
Qed.

Lemma digits_uint d :
  forallb isdigit (lit (DecimalString.NilEmpty.string_of_uint d)) = true.
Proof.
  unfold lit. induction d; cbn [DecimalString.NilEmpty.string_of_uint
                                  list_ascii_of_string forallb];
    try reflexivity;
    match goal with
    | |- isdigit ?c && _ = true =>
        change (isdigit c) with true
    end; exact IHd.
Qed.

Lemma itoa_nonneg n :
  0 <= n ->
  forallb isdigit (itoa n) = true /\ decimal (itoa n) = n.
Proof.
  intros Hn. unfold itoa.
  pose proof (DecimalZ.of_to n) as E.
  destruct n as [|p|p]; [split; reflexivity| |lia].
  cbn [Z.to_int] in *. cbn [Z.of_int] in E.
  cbn [DecimalString.NilZero.string_of_int].
  unfold DecimalString.NilZero.string_of_uint.
  destruct (Pos.to_uint p);
    try (split; [apply digits_uint | rewrite decimal_uint; exact E]).
  discriminate.
Qed.

(** X3.  [get_pid] undoes the "%d" that builds the paths: for every pid
    from 0 to [INT_MAX], parsing its decimal text gives the pid back, so
    the entry of /proc named by that text is probed under /proc/<text>; the
    text of a negative number is refused. *)
Theorem get_pid_itoa K stack mountPoint action n :
  (0 <= n <= INT_MAX ->
   get_pid (itoa n) = n
   /\ hd_error (snd (scan_entry K stack mountPoint action (itoa n)))
      = Some (EvOpendir (lit "/proc/" ++ itoa n ++ lit "/fd")))
  /\ (n < 0 -> get_pid (itoa n) = -1).
Proof.
  split.
  - intros [H0 H1]. destruct (itoa_nonneg n H0) as [Hd Hv].
    assert (C : cstr (itoa n) = itoa n) by apply cstr_fixed, itoa_no_nul.
    assert (E : get_pid (itoa n) = n).
    { unfold get_pid. rewrite get_pid_loop_digits; rewrite ?C;
        fold (decimal (itoa n)); try assumption; lia. }
    split; [exact E|].
    unfold scan_entry. rewrite E.
    replace (n =? -1) with false by (symmetry; apply Z.eqb_neq; lia).
    rewrite snd_bind. unfold holds. rewrite !snd_orelse.
    unfold CheckFileDescriptorSymLinks at 1, opendir.
    rewrite !snd_bind. cbn [emit snd app hd_error].
    now rewrite cstr_proc_path.
  - intros Hn. unfold itoa.
    destruct n as [|p|p]; try lia. reflexivity.
Qed.

(** Pid 4242, and the text of -7. *)
Lemma get_pid_itoa_witness :
  0 <= 4242 <= INT_MAX
  /\ get_pid (itoa 4242) = 4242
  /\ hd_error (snd (scan_entry absent [] (lit "/mnt/vol") 2 (itoa 4242)))
     = Some (EvOpendir (lit "/proc/" ++ itoa 4242 ++ lit "/fd"))
  /\ -7 < 0
  /\ get_pid (itoa (-7)) = -1.
Proof.
  split; [vm_compute; split; discriminate|].
  pose proof (get_pid_itoa absent [] (lit "/mnt/vol") 2 4242) as [A _].
  pose proof (get_pid_itoa absent [] (lit "/mnt/vol") 2 (-7)) as [_ B].
  split; [apply A; vm_compute; split; discriminate|].
  split; [apply A; vm_compute; split; discriminate|].
  split; [reflexivity|]. apply B. reflexivity.
Defined.

(** * What the calls amount to *)

Lemma ReadSymLink_run K path link :
  (Z.to_nat PATH_MAX <= List.length link)%nat ->
  snd (ReadSymLink K path link) = link_calls K (cstr path)
  /\ List.length (snd (fst (ReadSymLink K path link))) = List.length link
  /\ match link_target K (cstr path) with
     | Some target =>
         fst (fst (ReadSymLink K path link)) = true
         /\ cstr (snd (fst (ReadSymLink K path link))) = target
     | None => fst (ReadSymLink K path link) = (false, link)
     end.
Proof.
  intros L. unfold link_calls, link_target.
  destruct (k_lstat K (cstr path)) as [st_mode|] eqn:Hs.
  2:{ rewrite (ReadSymLink_lstat_fails _ _ _ Hs). repeat split. }
  destruct (Z.eqb_spec (Z.land st_mode S_IFMT) S_IFLNK) as [Hm|Hm].
  2:{ rewrite (ReadSymLink_not_a_link _ _ _ _ Hs Hm). repeat split. }
  destruct (k_readlink K (cstr path)) as [[|c target]|] eqn:Hr.
  - rewrite (ReadSymLink_empty_target _ _ _ _ Hs Hm Hr). repeat split.
  - rewrite (ReadSymLink_reads _ _ _ _ _ _ L Hs Hm Hr). cbn [fst snd].
    split; [reflexivity|]. split; [|split; [reflexivity | apply cstr_app_nul]].
    assert (P : (0 < Z.to_nat (PATH_MAX - 1))%nat) by (unfold PATH_MAX; lia).
    pose proof (length_firstn_cons _ c target P) as Hb.
    assert (Q : (Z.to_nat (PATH_MAX - 1) < Z.to_nat PATH_MAX)%nat)
      by (unfold PATH_MAX; lia).
    generalize dependent (firstn (Z.to_nat (PATH_MAX - 1)) (c :: target)).
    intros bytes Hb. rewrite length_app. cbn [List.length].
    rewrite length_skipn. lia.
  - rewrite (ReadSymLink_readlink_fails _ _ _ _ Hs Hm Hr). repeat split.
Qed.

Lemma GetProcessName_run K pid buffer :
  (Z.to_nat PATH_MAX <= List.length buffer)%nat ->
  snd (GetProcessName K pid buffer) = name_calls K pid
  /\ cstr (fst (GetProcessName K pid buffer)) = process_name K pid.
Proof.
  intros L. rewrite GetProcessName_eq. cbv zeta. unfold name_calls, process_name.
  destruct (k_open K (cmdline pid)) as [[|data]|]; cbn [fst snd].
  - split; [reflexivity|]. now rewrite cstr_strcpy, cstr_cmdline.
  - pose proof (length_strcpy buffer (cmdline pid)) as L0.
    assert (Hb : (List.length (firstn (Z.to_nat (PATH_MAX - 1)) data)
                  < Z.to_nat PATH_MAX)%nat)
      by (rewrite length_firstn; unfold PATH_MAX; lia).
    generalize dependent (firstn (Z.to_nat (PATH_MAX - 1)) data).
    intros bytes Hb. rewrite terminate_after by lia. cbn [fst snd app].
    split; [reflexivity | apply cstr_app_nul].
  - split; [reflexivity | apply cstr_strcpy].
Qed.

(** Only the string a pointer denotes takes part in the match. *)
Lemma PathMatchesMountPoint_cstr path mountPoint :
  Z.of_nat (strlen mountPoint) <= INT_MAX ->
  PathMatchesMountPoint path mountPoint
  = PathMatchesMountPoint (cstr path) mountPoint.
Proof.
  intros F. now rewrite !PathMatchesMountPoint_eq, cstr_idem by assumption.
Qed.

Lemma cstr_fd_entry pid d_name :
  cstr ((fd_dir pid ++ [slash]) ++ cstr d_name)
  = fd_dir pid ++ [slash] ++ cstr d_name.
Proof.
  unfold fd_dir. rewrite <- !app_assoc, cstr_proc_path. do 2 f_equal.
  rewrite cstr_app by (intros c H; vm_compute in H;
                       decompose [or] H; subst; try reflexivity; tauto).
  f_equal. cbn [app cstr]. change (Ascii.eqb slash NUL) with false. cbv iota.
  now rewrite cstr_idem.
Qed.

(** The lookup of the name and the log record that uses it, whatever
    follows. *)
Lemma name_step K stack pid prio fmt rest {B} (k : IO B) :
  (name <- GetProcessName K pid (char_array stack PATH_MAX) ;;
   emit (EvLog prio fmt (AStr (cstr name) :: rest)) ;; k)
  = (fst k,
     name_calls K pid
     ++ EvLog prio fmt (AStr (process_name K pid) :: rest) :: snd k).
Proof.
  destruct (GetProcessName_run K pid (char_array stack PATH_MAX)) as [T N];
    [rewrite length_char_array; lia|].
  rewrite !bind_eq. cbn [emit fst snd app]. now rewrite T, N.
Qed.

Lemma CheckSymLink_run K stack pid mountPoint name message :
  Z.of_nat (strlen mountPoint) <= INT_MAX ->
  CheckSymLink K stack pid mountPoint name message
  = if link_matches K mountPoint (proc_link pid name) then
      (true,
       link_calls K (proc_link pid name) ++ name_calls K pid
       ++ [EvLog LOG_WARN "Process %s (%d) has %s in %s"
             [AStr (process_name K pid); AInt pid; AStr (cstr message);
              AStr (cstr mountPoint)]])
    else (false, link_calls K (proc_link pid name)).
Proof.
  intros F. unfold CheckSymLink. fold (proc_link pid name).
  destruct (ReadSymLink_run K (proc_link pid name) (char_array stack PATH_MAX))
    as (T & _ & R); [rewrite length_char_array; lia|].
  rewrite cstr_proc_link in T, R. unfold link_matches.
  rewrite bind_eq, T.
  destruct (ReadSymLink K (proc_link pid name) (char_array stack PATH_MAX))
    as [[islink link] t]. cbn [fst snd] in *.
  destruct (link_target K (proc_link pid name)) as [target|].
  - destruct R as [-> <-]. cbn [andb].
    rewrite <- PathMatchesMountPoint_cstr by assumption.
    destruct (PathMatchesMountPoint link mountPoint).
    + rewrite name_step. reflexivity.
    + cbn [ret fst snd]. now rewrite app_nil_r.
  - injection R as -> ->. cbn [andb ret fst snd]. now rewrite app_nil_r.
Qed.

Lemma fd_loop_nil K stack pid mountPoint dirname parent link fileOpen :
  fd_loop K stack pid mountPoint dirname parent [] link fileOpen
  = (fileOpen, [EvReaddir dirname]).
Proof. reflexivity. Qed.

(** One turn of the descriptor loop, by what the kernel answers. *)
Lemma fd_loop_cons K stack pid mountPoint dirname parent d_name dir link :
  (Z.to_nat PATH_MAX <= List.length link)%nat ->
  Z.of_nat (strlen mountPoint) <= INT_MAX ->
  let path := cstr (parent ++ cstr d_name) in
  exists link',
    List.length link' = List.length link
    /\ fd_loop K stack pid mountPoint dirname parent (d_name :: dir) link false
       = if is_dot d_name then
           (fst (fd_loop K stack pid mountPoint dirname parent dir link' false),
            EvReaddir dirname
            :: snd (fd_loop K stack pid mountPoint dirname parent dir link' false))
         else if link_matches K mountPoint path then
           (true,
            EvReaddir dirname :: link_calls K path ++ name_calls K pid
            ++ [EvLog LOG_ERROR "Process %s (%d) has open file %s"
                  [AStr (process_name K pid); AInt pid;
                   AStr (match link_target K path with
                         | Some target => target
                         | None => []
                         end)];
                EvReaddir dirname])
         else
           (fst (fd_loop K stack pid mountPoint dirname parent dir link' false),
            EvReaddir dirname :: link_calls K path
            ++ snd (fd_loop K stack pid mountPoint dirname parent dir link' false)).
Proof.
  intros L F path. cbn [fd_loop]. rewrite emit_bind. fold (is_dot d_name).
  destruct (is_dot d_name); [exists link; split; reflexivity|].
  destruct (ReadSymLink_run K (parent ++ cstr d_name) link L) as (T & Len & R).
  fold path in T, R. unfold link_matches. rewrite bind_eq, T.
  destruct (ReadSymLink K (parent ++ cstr d_name) link) as [[islink link'] t].
  cbn [fst snd] in *. exists link'. split; [exact Len|].
  destruct (link_target K path) as [target|].
  - destruct R as [-> <-]. cbn [andb].
    rewrite <- PathMatchesMountPoint_cstr by assumption.
    destruct (PathMatchesMountPoint link' mountPoint); [|reflexivity].
    rewrite name_step, fd_loop_found. cbn [fst snd]. reflexivity.
  - injection R as -> ->. reflexivity.
Qed.

Lemma maps_loop_cons K stack fuel pid mountPoint filename file :
  maps_loop K stack (S fuel) pid mountPoint filename file false
  = match read_fgets (PATH_MAX + 100) file with
    | None => (false, [EvFgets filename])
    | Some (buffer, file') =>
        if line_matches mountPoint buffer then
          (true,
           EvFgets filename :: name_calls K pid
           ++ [EvLog LOG_ERROR "process %s (%d) has open file map for %s"
                 [AStr (process_name K pid); AInt pid;
                  AStr (match strchr buffer slash with
                        | Some path => cstr path
                        | None => []
                        end)]])
        else
          (fst (maps_loop K stack fuel pid mountPoint filename file' false),
           EvFgets filename
           :: snd (maps_loop K stack fuel pid mountPoint filename file' false))
    end.
Proof.
  cbn [maps_loop]. unfold fgets. rewrite !bind_eq. cbn [emit ret fst snd app].
  destruct (read_fgets (PATH_MAX + 100) file) as [[buffer file']|]; [|reflexivity].
  unfold line_matches. destruct (strchr buffer slash) as [path|]; [|reflexivity].
  destruct (PathMatchesMountPoint path mountPoint); [|reflexivity].
  rewrite name_step, maps_loop_found. reflexivity.
Qed.

(** * Probe A: the descriptors *)

Lemma strcmp_zero s1 s2 : strcmp s1 s2 = 0 <-> cstr s1 = cstr s2.
Proof.
  revert s2. induction s1 as [|c s1 IH]; intros s2; cbn [strcmp cstr].
  - destruct s2 as [|x s2]; cbn [hd cstr]; [split; reflexivity|].
    destruct (Ascii.eqb x NUL) eqn:E.
    + apply Ascii.eqb_eq in E. subst x. split; reflexivity.
    + split; [|discriminate]. intros H. exfalso.
      apply (code_diff NUL x); [now rewrite Ascii.eqb_sym | exact H].
  - destruct s2 as [|x s2]; cbn [hd tl cstr].
    + destruct (Ascii.eqb c NUL) eqn:E; cbn [negb]; [split; reflexivity|].
      split; [|discriminate]. intros H. exfalso. exact (code_diff c NUL E H).
    + destruct (Ascii.eqb c x) eqn:E; cbn [negb].
      * apply Ascii.eqb_eq in E. subst x.
        destruct (Ascii.eqb c NUL); [split; reflexivity|].
        rewrite IH. split; [intros ->; reflexivity | now intros [= ->]].
      * split; [intros H; exfalso; exact (code_diff c x E H)|].
        intros H. exfalso. apply Ascii.eqb_neq in E.
        destruct (Ascii.eqb c NUL) eqn:Ec, (Ascii.eqb x NUL) eqn:Ex;
          try discriminate.
        -- apply Ascii.eqb_eq in Ec, Ex. congruence.
        -- injection H as H _. congruence.
Qed.

Lemma is_dot_iff d_name :
  is_dot d_name = true <-> cstr d_name = lit "." \/ cstr d_name = lit "..".
Proof.
  unfold is_dot. rewrite orb_true_iff, !Z.eqb_eq, !strcmp_zero. reflexivity.
Qed.

Lemma link_target_iff K path target :
  link_target K path = Some target
  <-> exists st_mode bytes,
        k_lstat K path = Some st_mode
        /\ Z.land st_mode S_IFMT = S_IFLNK
        /\ k_readlink K path = Some bytes
        /\ bytes <> []
        /\ target = cstr (firstn (Z.to_nat (PATH_MAX - 1)) bytes).
Proof.
  unfold link_target. split.
  - destruct (k_lstat K path) as [m|]; [|discriminate].
    destruct (Z.eqb_spec (Z.land m S_IFMT) S_IFLNK) as [Hm|Hm]; [|discriminate].
    destruct (k_readlink K path) as [[|c bytes]|]; try discriminate.
    intros [= <-]. exists m, (c :: bytes). repeat split; auto. discriminate.
  - intros (m & bytes & -> & Hm & -> & N & ->).
    apply Z.eqb_eq in Hm. rewrite Hm. destruct bytes; [contradiction | reflexivity].
Qed.

Lemma fd_loop_fst K stack pid mountPoint dir link :
  (Z.to_nat PATH_MAX <= List.length link)%nat ->
  Z.of_nat (strlen mountPoint) <= INT_MAX ->
  fst (fd_loop K stack pid mountPoint (fd_dir pid) (fd_dir pid ++ [slash])
         dir link false)
  = existsb (fd_matches K pid mountPoint) dir.
Proof.
  intros L F. revert link L.
  induction dir as [|d_name dir IH]; intros link L; [reflexivity|].
  destruct (fd_loop_cons K stack pid mountPoint (fd_dir pid)
              (fd_dir pid ++ [slash]) d_name dir link L F) as (link' & Len & E).
  rewrite E, cstr_fd_entry. clear E. cbn [existsb]. unfold fd_matches at 1.
  destruct (is_dot d_name); cbn [negb andb orb fst]; [apply IH; lia|].
  destruct (link_matches K mountPoint _); cbn [orb fst]; [reflexivity|].
  apply IH. lia.
Qed.

Lemma CheckFileDescriptorSymLinks_fst K stack pid mountPoint :
  Z.of_nat (strlen mountPoint) <= INT_MAX ->
  fst (CheckFileDescriptorSymLinks K stack pid mountPoint)
  = match k_opendir K (fd_dir pid) with
    | None => false
    | Some dir => existsb (fd_matches K pid mountPoint) dir
    end.
Proof.
  intros F. unfold CheckFileDescriptorSymLinks, opendir. fold (fd_dir pid).
  rewrite cstr_fd_dir, !fst_bind. cbn [emit ret fst snd].
  destruct (k_opendir K (fd_dir pid)) as [dir|]; [|reflexivity].
  rewrite !fst_bind. cbn [emit ret fst snd].
  apply fd_loop_fst; [rewrite length_char_array; lia | assumption].
Qed.

(** X4.  Probe A says "holding" exactly when the fd directory of the
    process opens and one of its entries other than "." and ".." is a
    symbolic link whose target, cut to [PATH_MAX - 1] bytes, matches the
    mount point. *)
Theorem CheckFileDescriptorSymLinks_decides K stack pid mountPoint :
  Z.of_nat (strlen mountPoint) <= INT_MAX ->
  (fst (CheckFileDescriptorSymLinks K stack pid mountPoint) = true
   <-> exists dir d_name st_mode target,
         k_opendir K (fd_dir pid) = Some dir
         /\ In d_name dir
         /\ cstr d_name <> lit "." /\ cstr d_name <> lit ".."
         /\ k_lstat K (fd_dir pid ++ [slash] ++ cstr d_name) = Some st_mode
         /\ Z.land st_mode S_IFMT = S_IFLNK
         /\ k_readlink K (fd_dir pid ++ [slash] ++ cstr d_name) = Some target
         /\ target <> []
         /\ PathMatchesMountPoint
              (firstn (Z.to_nat (PATH_MAX - 1)) target) mountPoint = true).
Proof.
  intros F. rewrite CheckFileDescriptorSymLinks_fst by assumption. split.
  - destruct (k_opendir K (fd_dir pid)) as [dir|]; [|discriminate].
    intros H. apply existsb_exists in H. destruct H as (d_name & Hin & Hm).
    unfold fd_matches, link_matches in Hm. apply andb_prop in Hm.
    destruct Hm as [Hd Hl].
    destruct (link_target K _) as [t|] eqn:Ht; [|discriminate].
    apply link_target_iff in Ht.
    destruct Ht as (m & bytes & H1 & H2 & H3 & H4 & ->).
    rewrite <- PathMatchesMountPoint_cstr in Hl by assumption.
    exists dir, d_name, m, bytes. repeat split; auto;
      intros E; apply negb_true_iff in Hd;
      rewrite (proj2 (is_dot_iff d_name)) in Hd; auto; discriminate.
  - intros (dir & d_name & m & bytes & -> & Hin & N1 & N2 & H1 & H2 & H3 & H4 & Hm).
    apply existsb_exists. exists d_name. split; [assumption|].
    unfold fd_matches, link_matches. apply andb_true_intro. split.
    + apply negb_true_iff. destruct (is_dot d_name) eqn:E; [|reflexivity].
      apply is_dot_iff in E. tauto.
    + rewrite (proj2 (link_target_iff K _ _))
        by (exists m, bytes; repeat split; eauto).
      now rewrite <- PathMatchesMountPoint_cstr.
Qed.

(** Descriptor 3 of process 1 is a file below /mnt/vol. *)
Lemma CheckFileDescriptorSymLinks_decides_witness :
  Z.of_nat (strlen (lit "/mnt/vol")) <= INT_MAX
  /\ fst (CheckFileDescriptorSymLinks fd_inside [] 1 (lit "/mnt/vol")) = true
  /\ exists dir d_name st_mode target,
         k_opendir fd_inside (fd_dir 1) = Some dir
         /\ In d_name dir
         /\ cstr d_name <> lit "." /\ cstr d_name <> lit ".."
         /\ k_lstat fd_inside (fd_dir 1 ++ [slash] ++ cstr d_name) = Some st_mode
         /\ Z.land st_mode S_IFMT = S_IFLNK
         /\ k_readlink fd_inside (fd_dir 1 ++ [slash] ++ cstr d_name) = Some target
         /\ target <> []
         /\ PathMatchesMountPoint
              (firstn (Z.to_nat (PATH_MAX - 1)) target) (lit "/mnt/vol") = true.
Proof.
  assert (F : Z.of_nat (strlen (lit "/mnt/vol")) <= INT_MAX)
    by (vm_compute; discriminate).
  split; [exact F|]. split; [vm_compute; reflexivity|].
  apply (proj1 (CheckFileDescriptorSymLinks_decides fd_inside [] 1
                  (lit "/mnt/vol") F)).
  vm_compute. reflexivity.
Defined.

Lemma resolved_app t1 t2 : resolved (t1 ++ t2) = resolved t1 ++ resolved t2.
Proof. apply flat_map_app. Qed.

Lemma resolved_link_calls K path : resolved (link_calls K path) = [path].
Proof.
  unfold link_calls. destruct (k_lstat K path) as [m|]; [|reflexivity].
  destruct (Z.land m S_IFMT =? S_IFLNK); reflexivity.
Qed.

Lemma resolved_name_calls K pid : resolved (name_calls K pid) = [].
Proof.
  unfold name_calls. destruct (k_open K (cmdline pid)) as [[|data]|]; reflexivity.
Qed.

Lemma fd_loop_resolved K stack pid mountPoint dir link :
  (Z.to_nat PATH_MAX <= List.length link)%nat ->
  Z.of_nat (strlen mountPoint) <= INT_MAX ->
  resolved (snd (fd_loop K stack pid mountPoint (fd_dir pid)
                   (fd_dir pid ++ [slash]) dir link false))
  = map (fun d_name => fd_dir pid ++ [slash] ++ cstr d_name)
        (take_through (fd_matches K pid mountPoint)
           (filter (fun d_name => negb (is_dot d_name)) dir)).
Proof.
  intros L F. revert link L.
  induction dir as [|d_name dir IH]; intros link L; [reflexivity|].
  destruct (fd_loop_cons K stack pid mountPoint (fd_dir pid)
              (fd_dir pid ++ [slash]) d_name dir link L F) as (link' & Len & E).
  rewrite E, cstr_fd_entry. clear E. cbn [filter].
  destruct (is_dot d_name) eqn:D; cbn [negb snd].
  { change (resolved (?e :: ?t)) with (resolved t). apply IH. lia. }
  cbn [take_through]. unfold fd_matches at 1. rewrite D. cbn [negb andb].
  destruct (link_matches K mountPoint _); cbn [snd map];
    change (resolved (EvReaddir ?d :: ?t)) with (resolved t);
    rewrite !resolved_app, resolved_link_calls.
  - now rewrite resolved_name_calls.
  - cbn [app]. f_equal. apply IH. lia.
Qed.

(** X5.  Probe A stops at the first match: the descriptors it resolves
    are the entries other than "." and "..", in the order of [readdir], up
    to and including the first that matches; what the directory lists after
    it is not looked at. *)
Theorem CheckFileDescriptorSymLinks_stops K stack pid mountPoint dir :
  Z.of_nat (strlen mountPoint) <= INT_MAX ->
  k_opendir K (fd_dir pid) = Some dir ->
  resolved (snd (CheckFileDescriptorSymLinks K stack pid mountPoint))
  = map (fun d_name => fd_dir pid ++ [slash] ++ cstr d_name)
        (take_through (fd_matches K pid mountPoint)
           (filter (fun d_name => negb (is_dot d_name)) dir))
  /\ forall d_name,
       is_dot d_name = true
       <-> cstr d_name = lit "." \/ cstr d_name = lit "..".
Proof.
  intros F H. split; [|exact is_dot_iff].
  unfold CheckFileDescriptorSymLinks, opendir. fold (fd_dir pid).
  rewrite cstr_fd_dir, !snd_bind, !fst_bind. cbn [emit ret fst snd]. rewrite H.
  rewrite !snd_bind. cbn [emit ret fst snd app].
  change (resolved (EvOpendir ?d :: ?t)) with (resolved t).
  rewrite resolved_app, fd_loop_resolved
    by (rewrite ?length_char_array; first [lia | assumption]).
  cbn. apply app_nil_r.
Qed.

(** Descriptors 0 and 3 are resolved, descriptor 4 is not. *)
Lemma CheckFileDescriptorSymLinks_stops_witness :
  Z.of_nat (strlen (lit "/mnt/vol")) <= INT_MAX
  /\ k_opendir fd_inside (fd_dir 1)
     = Some [lit "."; lit ".."; lit "0"; lit "3"; lit "4"]
  /\ resolved (snd (CheckFileDescriptorSymLinks fd_inside [] 1 (lit "/mnt/vol")))
     = map (fun d_name => fd_dir 1 ++ [slash] ++ cstr d_name)
           (take_through (fd_matches fd_inside 1 (lit "/mnt/vol"))
              (filter (fun d_name => negb (is_dot d_name))
                 [lit "."; lit ".."; lit "0"; lit "3"; lit "4"])).
Proof.
  split; [vm_compute; discriminate|]. split; [reflexivity|].
  apply (proj1 (CheckFileDescriptorSymLinks_stops fd_inside [] 1 (lit "/mnt/vol")
                  [lit "."; lit ".."; lit "0"; lit "3"; lit "4"]
                  ltac:(vm_compute; discriminate) eq_refl)).
Defined.

(** * Probes C, D and E: the links of the process *)

(** X6.  A link probe (cwd, root, exe) says "holding" exactly when
    /proc/<pid>/<name> is a symbolic link whose target, cut to
    [PATH_MAX - 1] bytes, matches the mount point; the message plays no
    part. *)
Theorem CheckSymLink_decides K stack pid mountPoint name message :
  Z.of_nat (strlen mountPoint) <= INT_MAX ->
  (fst (CheckSymLink K stack pid mountPoint name message) = true
   <-> exists st_mode target,
         k_lstat K (proc_link pid name) = Some st_mode
         /\ Z.land st_mode S_IFMT = S_IFLNK
         /\ k_readlink K (proc_link pid name) = Some target
         /\ target <> []
         /\ PathMatchesMountPoint
              (firstn (Z.to_nat (PATH_MAX - 1)) target) mountPoint = true).
Proof.
  intros F. rewrite CheckSymLink_run by assumption. unfold link_matches. split.
  - destruct (link_target K (proc_link pid name)) as [t|] eqn:Ht;
      [|discriminate].
    apply link_target_iff in Ht.
    destruct Ht as (m & bytes & H1 & H2 & H3 & H4 & ->).
    rewrite <- PathMatchesMountPoint_cstr by assumption.
    destruct (PathMatchesMountPoint _ mountPoint) eqn:Hm; [|discriminate].
    intros _. exists m, bytes. auto.
  - intros (m & bytes & H1 & H2 & H3 & H4 & Hm).
    rewrite (proj2 (link_target_iff K _ _))
      by (exists m, bytes; repeat split; eauto).
    rewrite <- PathMatchesMountPoint_cstr, Hm by assumption. reflexivity.
Qed.

(** The working directory of process 1 is below /mnt/vol. *)
Lemma CheckSymLink_decides_witness :
  Z.of_nat (strlen (lit "/mnt/vol")) <= INT_MAX
  /\ (fst (CheckSymLink (cwd_inside None) [] 1 (lit "/mnt/vol") (lit "cwd")
             (lit "working directory")) = true
      <-> exists st_mode target,
            k_lstat (cwd_inside None) (proc_link 1 (lit "cwd")) = Some st_mode
            /\ Z.land st_mode S_IFMT = S_IFLNK
            /\ k_readlink (cwd_inside None) (proc_link 1 (lit "cwd")) = Some target
            /\ target <> []
            /\ PathMatchesMountPoint
                 (firstn (Z.to_nat (PATH_MAX - 1)) target) (lit "/mnt/vol") = true).
Proof.
  split; [vm_compute; discriminate|].
  apply CheckSymLink_decides. vm_compute. discriminate.
Defined.

(** * The log records *)

Lemma logs_app t1 t2 :
  log_priorities (t1 ++ t2) = log_priorities t1 ++ log_priorities t2.
Proof. apply flat_map_app. Qed.

Lemma logs_cons e t : log_priorities (e :: t) = log_of e ++ log_priorities t.
Proof. reflexivity. Qed.

Lemma logs_nil : log_priorities [] = [].
Proof. reflexivity. Qed.

Lemma logs_bind {A B} (m : IO A) (f : A -> IO B) :
  log_priorities (snd (bind m f))
  = log_priorities (snd m) ++ log_priorities (snd (f (fst m))).
Proof. now rewrite snd_bind, logs_app. Qed.

Ltac log_step :=
  repeat first
    [ rewrite logs_bind | rewrite fst_bind
    | rewrite logs_app | rewrite logs_cons | rewrite logs_nil
    | progress cbn [emit ret kill fst snd log_of app] ].

Lemma store_logs a i c : log_priorities (snd (store a i c)) = [].
Proof.
  unfold store. now destruct ((0 <=? i) && (i <? Z.of_nat (List.length a))).
Qed.

Lemma ReadSymLink_logs K path link :
  log_priorities (snd (ReadSymLink K path link)) = [].
Proof.
  rewrite ReadSymLink_eq.
  destruct (k_lstat K (cstr path)) as [m|]; [|reflexivity].
  destruct (negb (Z.land m S_IFMT =? S_IFLNK)); [reflexivity|].
  destruct (k_readlink K (cstr path)) as [t|]; [|reflexivity].
  cbv zeta. destruct (Z.of_nat _ <=? 0); [reflexivity|].
  log_step. apply store_logs.
Qed.

Lemma GetProcessName_logs K pid buffer :
  log_priorities (snd (GetProcessName K pid buffer)) = [].
Proof.
  rewrite GetProcessName_eq. cbv zeta.
  destruct (k_open K (cmdline pid)) as [[|data]|]; try reflexivity.
  log_step. now rewrite store_logs.
Qed.

Lemma fd_loop_logs K stack pid mountPoint dirname parent dir link fileOpen :
  log_priorities
    (snd (fd_loop K stack pid mountPoint dirname parent dir link fileOpen))
  = if fileOpen then []
    else if fst (fd_loop K stack pid mountPoint dirname parent dir link false)
         then [LOG_ERROR] else [].
Proof.
  revert link fileOpen.
  induction dir as [|d_name dir IH]; intros link fileOpen; cbn [fd_loop];
    log_step; [now destruct fileOpen|].
  destruct fileOpen; [reflexivity|].
  destruct ((strcmp d_name (lit ".") =? 0) || (strcmp d_name (lit "..") =? 0));
    [apply (IH _ false)|].
  log_step. rewrite ReadSymLink_logs.
  destruct (ReadSymLink K (parent ++ cstr d_name) link) as [[islink link'] t].
  cbn [fst snd app].
  destruct (islink && PathMatchesMountPoint link' mountPoint); [|apply (IH _ false)].
  log_step. rewrite GetProcessName_logs, IH, fd_loop_found. reflexivity.
Qed.

Lemma CheckFileDescriptorSymLinks_logs K stack pid mountPoint :
  log_priorities (snd (CheckFileDescriptorSymLinks K stack pid mountPoint))
  = if fst (CheckFileDescriptorSymLinks K stack pid mountPoint)
    then [LOG_ERROR] else [].
Proof.
  unfold CheckFileDescriptorSymLinks, opendir. log_step.
  destruct (k_opendir K _); [|reflexivity].
  log_step. rewrite fd_loop_logs. now destruct (fst (fd_loop _ _ _ _ _ _ _ _ _)).
Qed.

Lemma maps_loop_logs K stack fuel pid mountPoint filename file mapOpen :
  log_priorities
    (snd (maps_loop K stack fuel pid mountPoint filename file mapOpen))
  = if mapOpen then []
    else if fst (maps_loop K stack fuel pid mountPoint filename file false)
         then [LOG_ERROR] else [].
Proof.
  revert file mapOpen.
  induction fuel as [|fuel IH]; intros file mapOpen; cbn [maps_loop];
    [now destruct mapOpen|].
  destruct mapOpen; [reflexivity|].
  unfold fgets. log_step.
  destruct (read_fgets (PATH_MAX + 100) file) as [[buffer file']|]; [|reflexivity].
  destruct (strchr buffer slash) as [path|]; [|apply (IH _ false)].
  destruct (PathMatchesMountPoint path mountPoint); [|apply (IH _ false)].
  log_step. rewrite GetProcessName_logs, IH, maps_loop_found. reflexivity.
Qed.

Lemma CheckFileMaps_logs K stack pid mountPoint :
  log_priorities (snd (CheckFileMaps K stack pid mountPoint))
  = if fst (CheckFileMaps K stack pid mountPoint) then [LOG_ERROR] else [].
Proof.
  unfold CheckFileMaps, fopen. log_step.
  destruct (k_fopen K _); [|reflexivity].
  log_step. rewrite maps_loop_logs. now destruct (fst (maps_loop _ _ _ _ _ _ _ _)).
Qed.

Lemma CheckSymLink_logs K stack pid mountPoint name message :
  log_priorities (snd (CheckSymLink K stack pid mountPoint name message))
  = if fst (CheckSymLink K stack pid mountPoint name message)
    then [LOG_WARN] else [].
Proof.
  unfold CheckSymLink. log_step. rewrite ReadSymLink_logs.
  destruct (ReadSymLink K _ _) as [[islink link] t]. cbn [fst snd app].
  destruct (islink && PathMatchesMountPoint link mountPoint); [|reflexivity].
  log_step. now rewrite GetProcessName_logs.
Qed.

Lemma orelse_one_log (a b : IO bool) :
  List.length (log_priorities (snd a)) = (if fst a then 1 else 0)%nat ->
  List.length (log_priorities (snd b)) = (if fst b then 1 else 0)%nat ->
  List.length (log_priorities (snd (a ||| b)))
  = (if fst (a ||| b) then 1 else 0)%nat.
Proof.
  intros Ha Hb. rewrite snd_orelse, fst_orelse, logs_app, length_app, Ha.
  destruct (fst a); [reflexivity | exact Hb].
Qed.

Lemma holds_one_log K stack pid mountPoint :
  List.length (log_priorities (snd (holds K stack pid mountPoint)))
  = (if fst (holds K stack pid mountPoint) then 1 else 0)%nat.
Proof.
  unfold holds.
  repeat apply orelse_one_log;
    rewrite ?CheckFileDescriptorSymLinks_logs, ?CheckFileMaps_logs,
            ?CheckSymLink_logs;
    match goal with |- context [if ?b then _ else _] => now destruct b end.
Qed.

Lemma act_logs action pid :
  List.length (log_priorities (snd (act action pid)))
  = List.length (signals (snd (act action pid))).
Proof.
  unfold act. destruct (action =? 1); [reflexivity|].
  destruct (action =? 2); reflexivity.
Qed.

Lemma scan_logs K stack mountPoint action dir :
  List.length
    (log_priorities
       (flat_map (fun d_name =>
                    EvReaddir (lit "/proc")
                    :: snd (scan_entry K stack mountPoint action d_name)) dir))
  = (List.length (holders K stack mountPoint dir)
     + List.length
         (signals
            (flat_map (fun d_name =>
                         EvReaddir (lit "/proc")
                         :: snd (scan_entry K stack mountPoint action d_name))
                      dir)))%nat.
Proof.
  unfold holders.
  induction dir as [|d_name dir IH]; [reflexivity|].
  cbn [flat_map map filter].
  rewrite logs_app, signals_app, !length_app, IH, logs_cons, signals_cons.
  cbn [log_of signal_of app].
  rewrite scan_entry_trace, logs_app, signals_app, probing_quiet, !length_app.
  unfold probing.
  destruct (get_pid d_name =? -1); cbn [negb andb].
  - rewrite ?logs_nil, ?signals_nil. cbn [List.length]. lia.
  - rewrite holds_one_log.
    destruct (fst (holds K stack (get_pid d_name) mountPoint));
      rewrite ?logs_nil, ?signals_nil; cbn [List.length];
      rewrite ?act_logs; lia.
Qed.

Lemma KillProcessesWithOpenFiles_logs K stack mountPoint action :
  List.length
    (log_priorities (snd (KillProcessesWithOpenFiles K stack mountPoint action)))
  = (List.length match k_opendir K (lit "/proc") with
                 | Some dir => holders K stack mountPoint dir
                 | None => @nil Z
                 end
     + List.length
         (signals (snd (KillProcessesWithOpenFiles K stack mountPoint action))))%nat.
Proof.
  rewrite KillProcessesWithOpenFiles_trace, logs_cons, signals_cons.
  cbn [log_of signal_of app].
  destruct (k_opendir K (lit "/proc")) as [dir|]; [|reflexivity].
  rewrite logs_app, signals_app, !length_app, scan_logs. cbn. lia.
Qed.

(** X7.  One log record per match.  A probe that matches writes exactly
    one record, of priority error for the descriptors and the maps and
    warning for cwd, root and exe, and a probe that does not match writes
    none; a process found holding is reported once; the records of a whole
    run are one per holder and one per signal sent. *)
Theorem one_log_per_match K stack pid mountPoint action :
  Forall2 (fun (p : IO bool) prio =>
             log_priorities (snd p) = if fst p then [prio] else [])
          (probes K stack pid mountPoint)
          [LOG_ERROR; LOG_ERROR; LOG_WARN; LOG_WARN; LOG_WARN]
  /\ List.length (log_priorities (snd (holds K stack pid mountPoint)))
     = (if fst (holds K stack pid mountPoint) then 1 else 0)%nat
  /\ List.length
       (log_priorities
          (snd (KillProcessesWithOpenFiles K stack mountPoint action)))
     = (List.length match k_opendir K (lit "/proc") with
                    | Some dir => holders K stack mountPoint dir
                    | None => @nil Z
                    end
        + List.length
            (signals
               (snd (KillProcessesWithOpenFiles K stack mountPoint action))))%nat.
Proof.
  split; [|split].
  - unfold probes.
    repeat constructor;
      auto using CheckFileDescriptorSymLinks_logs, CheckFileMaps_logs,
                 CheckSymLink_logs.
  - apply holds_one_log.
  - apply KillProcessesWithOpenFiles_logs.
Qed.

(** * Who is a holder *)

Lemma holds_fst K stack pid mountPoint :
  Z.of_nat (strlen mountPoint) <= INT_MAX ->
  fst (holds K stack pid mountPoint) = holder K pid mountPoint.
Proof.
  intros F. unfold holds, holder.
  rewrite !fst_orelse, CheckFileDescriptorSymLinks_fst, CheckFileMaps_fst,
    !CheckSymLink_run by assumption.
  repeat f_equal;
    match goal with |- fst (if ?b then _ else _) = _ => now destruct b end.
Qed.

(** X8.  The decision for a process is a function of what the kernel
    shows of it, and of nothing else: it is true exactly when a descriptor,
    a line of the maps, the working directory, the root or the executable
    lies within the mount point.  What the uninitialised arrays hold plays
    no part. *)
Theorem holds_is_holder K stack pid mountPoint :
  Z.of_nat (strlen mountPoint) <= INT_MAX ->
  fst (holds K stack pid mountPoint) = holder K pid mountPoint
  /\ forall stack', fst (holds K stack' pid mountPoint)
                    = fst (holds K stack pid mountPoint).
Proof.
  intros F. split; [now apply holds_fst|].
  intros stack'. now rewrite !holds_fst.
Qed.

(** A process that maps a library from the mount point is a holder. *)
Lemma holds_is_holder_witness :
  Z.of_nat (strlen (lit "/mnt/vol")) <= INT_MAX
  /\ fst (holds lib_mapped [] 1 (lit "/mnt/vol"))
     = holder lib_mapped 1 (lit "/mnt/vol")
  /\ holder lib_mapped 1 (lit "/mnt/vol") = true.
Proof.
  split; [vm_compute; discriminate|].
  split; [|vm_compute; reflexivity].
  apply (holds_is_holder lib_mapped [] 1 (lit "/mnt/vol")).
  vm_compute. discriminate.
Defined.

(** * The root guard *)

Lemma PathMatchesMountPoint_short path mountPoint :
  (strlen mountPoint <= 1)%nat -> PathMatchesMountPoint path mountPoint = false.
Proof.
  intros H. unfold PathMatchesMountPoint.
  rewrite to_int_small by lia.
  replace (1 <? Z.of_nat (strlen mountPoint)) with false
    by (symmetry; apply Z.ltb_ge; lia).
  reflexivity.
Qed.

Lemma existsb_false {A} (f : A -> bool) l :
  (forall x, f x = false) -> existsb f l = false.
Proof.
  intros H. induction l as [|x l IH]; [reflexivity|].
  cbn [existsb]. now rewrite H, IH.
Qed.

Lemma holder_short K pid mountPoint :
  (strlen mountPoint <= 1)%nat -> holder K pid mountPoint = false.
Proof.
  intros H.
  assert (L : forall path, link_matches K mountPoint path = false).
  { intros path. unfold link_matches.
    destruct (link_target K path); [now apply PathMatchesMountPoint_short|reflexivity]. }
  unfold holder. rewrite !L, !orb_false_r.
  apply orb_false_intro.
  - destruct (k_opendir K (fd_dir pid)); [|reflexivity].
    apply existsb_false. intros d. unfold fd_matches. now rewrite L, andb_false_r.
  - destruct (k_fopen K (maps pid)); [|reflexivity].
    apply existsb_false. intros line. unfold line_matches.
    destruct (strchr line slash); [now apply PathMatchesMountPoint_short|reflexivity].
Qed.

(** X9.  The root guard, end to end: for a mount point of one byte or
    none ("/", ""), whatever the kernel shows and whatever the action, no
    process is signalled and none is reported. *)
Theorem short_mount_point_evicts_nobody K stack mountPoint action :
  (strlen mountPoint <= 1)%nat ->
  signals (snd (KillProcessesWithOpenFiles K stack mountPoint action)) = []
  /\ log_priorities (snd (KillProcessesWithOpenFiles K stack mountPoint action))
     = [].
Proof.
  intros H.
  assert (F : Z.of_nat (strlen mountPoint) <= INT_MAX) by (unfold INT_MAX; lia).
  assert (N : match k_opendir K (lit "/proc") with
              | Some dir => holders K stack mountPoint dir
              | None => []
              end = []).
  { destruct (k_opendir K (lit "/proc")) as [dir|]; [|reflexivity].
    unfold holders. induction (map get_pid dir) as [|p l IH]; [reflexivity|].
    cbn [filter]. rewrite holds_fst, holder_short, andb_false_r by assumption.
    exact IH. }
  assert (S0 : signals (snd (KillProcessesWithOpenFiles K stack mountPoint action))
               = []).
  { rewrite KillProcessesWithOpenFiles_signals, N. reflexivity. }
  split; [exact S0|].
  apply length_zero_iff_nil.
  rewrite KillProcessesWithOpenFiles_logs, N, S0. reflexivity.
Qed.

(** Action 2 on "/" with a process that has files open. *)
Lemma short_mount_point_evicts_nobody_witness :
  (strlen (lit "/") <= 1)%nat
  /\ signals (snd (KillProcessesWithOpenFiles fd_inside [] (lit "/") 2)) = []
  /\ log_priorities (snd (KillProcessesWithOpenFiles fd_inside [] (lit "/") 2))
     = [].
Proof.
  split; [vm_compute; lia|].
  apply short_mount_point_evicts_nobody. vm_compute. lia.
Defined.

(** * Who is signalled *)

Lemma in_flat_map_act action pid0 sig l :
  In (pid0, sig) (flat_map (fun pid => signals (snd (act action pid))) l) ->
  In pid0 l
  /\ ((action = 1 /\ sig = SIGTERM) \/ (action = 2 /\ sig = SIGKILL)).
Proof.
  intros H. apply in_flat_map in H. destruct H as (p & Hp & H).
  rewrite act_signals in H.
  destruct (Z.eqb_spec action 1) as [E1|E1].
  { destruct H as [[= -> <-]|[]]. auto. }
  destruct (Z.eqb_spec action 2) as [E2|E2]; [|destruct H].
  destruct H as [[= -> <-]|[]]. auto.
Qed.

(** X10.  Who can be signalled.  A signal goes only to a pid that was
    parsed from an entry of /proc whose name is all digits and that was
    found holding; the pid is never -1; the signal is SIGTERM under action
    1 and SIGKILL under action 2, and nothing else is ever sent. *)
Theorem signalled_pids K stack mountPoint action pid sig :
  In (pid, sig)
     (signals (snd (KillProcessesWithOpenFiles K stack mountPoint action))) ->
  pid <> -1
  /\ fst (holds K stack pid mountPoint) = true
  /\ (exists dir d_name,
         k_opendir K (lit "/proc") = Some dir
         /\ In d_name dir
         /\ get_pid d_name = pid
         /\ forallb isdigit (cstr d_name) = true)
  /\ ((action = 1 /\ sig = SIGTERM) \/ (action = 2 /\ sig = SIGKILL)).
Proof.
  rewrite KillProcessesWithOpenFiles_signals. intros H.
  apply in_flat_map_act in H. destruct H as [Hin Hs].
  destruct (k_opendir K (lit "/proc")) as [dir|]; [|destruct Hin].
  unfold holders in Hin. apply filter_In in Hin. destruct Hin as [Hm Hc].
  apply andb_prop in Hc. destruct Hc as [Hp Hh].
  apply negb_true_iff, Z.eqb_neq in Hp.
  apply in_map_iff in Hm. destruct Hm as (d_name & E & Hd).
  repeat split; auto.
  exists dir, d_name. repeat split; auto.
  destruct (forallb isdigit (cstr d_name)) eqn:D; [reflexivity|].
  exfalso. apply Hp. rewrite <- E. now apply get_pid_loop_nondigit.
Qed.

(** Process 1 is signalled with SIGKILL: it is listed and holding. *)
Lemma signalled_pids_witness :
  In (1, SIGKILL)
     (signals (snd (KillProcessesWithOpenFiles fd_inside [] (lit "/mnt/vol") 2)))
  /\ 1 <> -1
  /\ fst (holds fd_inside [] 1 (lit "/mnt/vol")) = true.
Proof.
  assert (H : In (1, SIGKILL)
                (signals (snd (KillProcessesWithOpenFiles fd_inside []
                                 (lit "/mnt/vol") 2))))
    by (vm_compute; left; reflexivity).
  split; [exact H|].
  pose proof (signalled_pids fd_inside [] (lit "/mnt/vol") 2 1 SIGKILL H)
    as (A & B & _).
  split; [exact A | exact B].
Defined.

(** * Stores outside the arrays *)

Lemma stores_app t1 t2 :
  stores_outside (t1 ++ t2) = stores_outside t1 ++ stores_outside t2.
Proof. apply flat_map_app. Qed.

Lemma stores_cons e t : stores_outside (e :: t) = store_of e ++ stores_outside t.
Proof. reflexivity. Qed.

Lemma stores_nil : stores_outside [] = [].
Proof. reflexivity. Qed.

Lemma stores_bind {A B} (m : IO A) (f : A -> IO B) :
  stores_outside (snd (bind m f))
  = stores_outside (snd m) ++ stores_outside (snd (f (fst m))).
Proof. now rewrite snd_bind, stores_app. Qed.

Ltac store_step :=
  repeat first
    [ rewrite stores_bind | rewrite fst_bind
    | rewrite stores_app | rewrite stores_cons | rewrite stores_nil
    | progress cbn [emit ret kill fst snd store_of app] ].

Lemma ReadSymLink_stores K path link :
  (Z.to_nat PATH_MAX <= List.length link)%nat ->
  stores_outside (snd (ReadSymLink K path link)) = [].
Proof.
  intros L. destruct (ReadSymLink_run K path link L) as (-> & _).
  unfold link_calls. destruct (k_lstat K (cstr path)) as [m|]; [|reflexivity].
  destruct (Z.land m S_IFMT =? S_IFLNK); reflexivity.
Qed.

Lemma GetProcessName_stores K pid buffer :
  (Z.to_nat PATH_MAX <= List.length buffer)%nat ->
  stores_outside (snd (GetProcessName K pid buffer)) = failed_read_store K pid.
Proof.
  intros L. destruct (GetProcessName_run K pid buffer L) as (-> & _).
  unfold name_calls, failed_read_store.
  destruct (k_open K (cmdline pid)) as [[|data]|]; reflexivity.
Qed.

Lemma fd_loop_stores K stack pid mountPoint dirname parent dir link fileOpen :
  (Z.to_nat PATH_MAX <= List.length link)%nat ->
  stores_outside
    (snd (fd_loop K stack pid mountPoint dirname parent dir link fileOpen))
  = if fileOpen then []
    else if fst (fd_loop K stack pid mountPoint dirname parent dir link false)
         then failed_read_store K pid else [].
Proof.
  revert link fileOpen.
  induction dir as [|d_name dir IH]; intros link fileOpen L; cbn [fd_loop];
    store_step; [now destruct fileOpen|].
  destruct fileOpen; [reflexivity|].
  destruct ((strcmp d_name (lit ".") =? 0) || (strcmp d_name (lit "..") =? 0));
    [apply (IH _ false L)|].
  store_step. rewrite ReadSymLink_stores by assumption.
  destruct (ReadSymLink_run K (parent ++ cstr d_name) link L) as (_ & Len & _).
  destruct (ReadSymLink K (parent ++ cstr d_name) link) as [[islink link'] t].
  cbn [fst snd app] in *.
  destruct (islink && PathMatchesMountPoint link' mountPoint);
    [|apply (IH _ false); lia].
  store_step.
  rewrite GetProcessName_stores, IH, fd_loop_found
    by (rewrite ?length_char_array; lia).
  apply app_nil_r.
Qed.

Lemma CheckFileDescriptorSymLinks_stores K stack pid mountPoint :
  stores_outside (snd (CheckFileDescriptorSymLinks K stack pid mountPoint))
  = if fst (CheckFileDescriptorSymLinks K stack pid mountPoint)
    then failed_read_store K pid else [].
Proof.
  unfold CheckFileDescriptorSymLinks, opendir. store_step.
  destruct (k_opendir K _); [|reflexivity].
  store_step. rewrite fd_loop_stores by (rewrite length_char_array; lia).
  destruct (fst (fd_loop _ _ _ _ _ _ _ _ _)); [apply app_nil_r | reflexivity].
Qed.

Lemma maps_loop_stores K stack fuel pid mountPoint filename file mapOpen :
  stores_outside
    (snd (maps_loop K stack fuel pid mountPoint filename file mapOpen))
  = if mapOpen then []
    else if fst (maps_loop K stack fuel pid mountPoint filename file false)
         then failed_read_store K pid else [].
Proof.
  revert file mapOpen.
  induction fuel as [|fuel IH]; intros file mapOpen; cbn [maps_loop];
    [now destruct mapOpen|].
  destruct mapOpen; [reflexivity|].
  unfold fgets. store_step.
  destruct (read_fgets (PATH_MAX + 100) file) as [[buffer file']|]; [|reflexivity].
  destruct (strchr buffer slash) as [path|]; [|apply (IH _ false)].
  destruct (PathMatchesMountPoint path mountPoint); [|apply (IH _ false)].
  store_step.
  rewrite GetProcessName_stores, IH, maps_loop_found
    by (rewrite ?length_char_array; lia).
  apply app_nil_r.
Qed.

Lemma CheckFileMaps_stores K stack pid mountPoint :
  stores_outside (snd (CheckFileMaps K stack pid mountPoint))
  = if fst (CheckFileMaps K stack pid mountPoint)
    then failed_read_store K pid else [].
Proof.
  unfold CheckFileMaps, fopen. store_step.
  destruct (k_fopen K _); [|reflexivity].
  store_step. rewrite maps_loop_stores.
  destruct (fst (maps_loop _ _ _ _ _ _ _ _)); [apply app_nil_r | reflexivity].
Qed.

Lemma CheckSymLink_stores K stack pid mountPoint name message :
  stores_outside (snd (CheckSymLink K stack pid mountPoint name message))
  = if fst (CheckSymLink K stack pid mountPoint name message)
    then failed_read_store K pid else [].
Proof.
  unfold CheckSymLink. store_step.
  rewrite ReadSymLink_stores by (rewrite length_char_array; lia).
  destruct (ReadSymLink K _ _) as [[islink link] t]. cbn [fst snd app].
  destruct (islink && PathMatchesMountPoint link mountPoint); [|reflexivity].
  store_step.
  rewrite GetProcessName_stores by (rewrite length_char_array; lia).
  apply app_nil_r.
Qed.

Lemma orelse_stores K pid (a b : IO bool) :
  stores_outside (snd a) = (if fst a then failed_read_store K pid else []) ->
  stores_outside (snd b) = (if fst b then failed_read_store K pid else []) ->
  stores_outside (snd (a ||| b))
  = if fst (a ||| b) then failed_read_store K pid else [].
Proof.
  intros Ha Hb. rewrite snd_orelse, fst_orelse, stores_app, Ha.
  destruct (fst a); [apply app_nil_r | exact Hb].
Qed.

Lemma holds_stores K stack pid mountPoint :
  stores_outside (snd (holds K stack pid mountPoint))
  = if fst (holds K stack pid mountPoint) then failed_read_store K pid else [].
Proof.
  unfold holds.
  repeat apply orelse_stores;
    auto using CheckFileDescriptorSymLinks_stores, CheckFileMaps_stores,
               CheckSymLink_stores.
Qed.

Lemma act_stores action pid : stores_outside (snd (act action pid)) = [].
Proof.
  unfold act. destruct (action =? 1); [reflexivity|].
  destruct (action =? 2); reflexivity.
Qed.

Lemma scan_stores K stack mountPoint action dir :
  stores_outside
    (flat_map (fun d_name =>
                 EvReaddir (lit "/proc")
                 :: snd (scan_entry K stack mountPoint action d_name)) dir)
  = flat_map (failed_read_store K) (holders K stack mountPoint dir).
Proof.
  unfold holders.
  induction dir as [|d_name dir IH]; [reflexivity|].
  cbn [flat_map map filter].
  rewrite stores_app, stores_cons, IH, scan_entry_trace, stores_app.
  cbn [store_of app]. unfold probing.
  destruct (get_pid d_name =? -1); cbn [negb andb]; [reflexivity|].
  rewrite holds_stores.
  destruct (fst (holds K stack (get_pid d_name) mountPoint));
    cbn [flat_map]; rewrite ?act_stores, ?app_nil_r; reflexivity.
Qed.

(** X11.  Stores outside the arrays.  On arrays of [PATH_MAX] bytes
    [ReadSymLink] never stores outside, and [GetProcessName] does so
    exactly when the command line opens and its [read] fails: the
    terminator then goes to index -1.  In a whole run there is one such
    store for each holder whose command line cannot be read, and no
    other. *)
Theorem stores_outside_arrays K stack mountPoint action :
  (forall path link,
      (Z.to_nat PATH_MAX <= List.length link)%nat ->
      stores_outside (snd (ReadSymLink K path link)) = [])
  /\ (forall pid buffer,
        (Z.to_nat PATH_MAX <= List.length buffer)%nat ->
        stores_outside (snd (GetProcessName K pid buffer))
        = failed_read_store K pid)
  /\ stores_outside (snd (KillProcessesWithOpenFiles K stack mountPoint action))
     = flat_map (failed_read_store K)
         match k_opendir K (lit "/proc") with
         | Some dir => holders K stack mountPoint dir
         | None => []
         end.
Proof.
  split; [|split].
  - intros path link. apply ReadSymLink_stores.
  - intros pid buffer. apply GetProcessName_stores.
  - rewrite KillProcessesWithOpenFiles_trace, stores_cons. cbn [store_of app].
    destruct (k_opendir K (lit "/proc")) as [dir|]; [|reflexivity].
    rewrite stores_app, scan_stores. cbn. apply app_nil_r.
Qed.

(** A link that resolves, and a command line that cannot be read. *)
Lemma stores_outside_arrays_witness :
  (Z.to_nat PATH_MAX <= List.length (char_array [] PATH_MAX))%nat
  /\ stores_outside
       (snd (ReadSymLink (cwd_inside None) (lit "/proc/1/cwd")
               (char_array [] PATH_MAX))) = []
  /\ stores_outside
       (snd (GetProcessName (cwd_inside (Some ReadFails)) 1
               (char_array [] PATH_MAX))) = [-1].
Proof.
  assert (L : (Z.to_nat PATH_MAX <= List.length (char_array [] PATH_MAX))%nat)
    by (vm_compute; lia).
  split; [exact L|].
  pose proof (stores_outside_arrays (cwd_inside None) [] (lit "/mnt/vol") 0)
    as (A & _).
  pose proof (stores_outside_arrays (cwd_inside (Some ReadFails)) []
                (lit "/mnt/vol") 0) as (_ & B & _).
  split; [exact (A (lit "/proc/1/cwd") _ L) | exact (B 1 _ L)].
Defined.

(** * Handles are closed, in the order they were opened *)

Lemma handles_app K t1 t2 opened :
  handles K (t1 ++ t2) opened
  = match handles K t1 opened with
    | Some opened' => handles K t2 opened'
    | None => None
    end.
Proof.
  revert opened. induction t1 as [|e t1 IH]; intros opened; [reflexivity|].
  cbn [app handles].
  destruct e; try apply IH;
    match goal with
    | |- context [on_top ?h opened] => destruct (on_top h opened); [apply IH | reflexivity]
    end.
Qed.

Lemma tidy_nil K : tidy K [].
Proof. intros opened. reflexivity. Qed.

Lemma tidy_app K t1 t2 : tidy K t1 -> tidy K t2 -> tidy K (t1 ++ t2).
Proof.
  intros H1 H2 opened. now rewrite handles_app, H1, H2.
Qed.

Lemma tidy_bind {A B} K (m : IO A) (f : A -> IO B) :
  tidy K (snd m) -> tidy K (snd (f (fst m))) -> tidy K (snd (bind m f)).
Proof. intros H1 H2. rewrite snd_bind. now apply tidy_app. Qed.

Lemma same_path_refl p : same_path p p = true.
Proof. unfold same_path. now destruct (list_eq_dec ascii_dec p p). Qed.

Lemma link_calls_tidy K path : tidy K (link_calls K path).
Proof.
  intros opened. unfold link_calls.
  destruct (k_lstat K path) as [m|]; [|reflexivity].
  destruct (Z.land m S_IFMT =? S_IFLNK); reflexivity.
Qed.

Lemma name_calls_tidy K pid : tidy K (name_calls K pid).
Proof.
  intros opened. unfold name_calls.
  destruct (k_open K (cmdline pid)) as [[|data]|] eqn:E;
    cbn [handles on_top handle_eqb tl]; rewrite E, ?same_path_refl;
    cbn [handles on_top handle_eqb tl]; rewrite ?same_path_refl; reflexivity.
Qed.

Lemma ReadSymLink_tidy K path link :
  (Z.to_nat PATH_MAX <= List.length link)%nat ->
  tidy K (snd (ReadSymLink K path link)).
Proof.
  intros L. destruct (ReadSymLink_run K path link L) as (-> & _).
  apply link_calls_tidy.
Qed.

Lemma GetProcessName_tidy K stack pid :
  tidy K (snd (GetProcessName K pid (char_array stack PATH_MAX))).
Proof.
  destruct (GetProcessName_run K pid (char_array stack PATH_MAX)) as (-> & _);
    [rewrite length_char_array; lia|].
  apply name_calls_tidy.
Qed.

Lemma log_tidy K prio fmt args {B} (k : IO B) :
  tidy K (snd k) -> tidy K (snd (emit (EvLog prio fmt args) ;; k)).
Proof.
  intros H opened. rewrite snd_bind. cbn [emit snd app handles]. apply H.
Qed.

(** The descriptor loop, run while its directory is the handle opened
    last, leaves it so. *)
Lemma fd_loop_handles K stack pid mountPoint dirname parent dir link fileOpen :
  (Z.to_nat PATH_MAX <= List.length link)%nat ->
  forall opened,
    handles K (snd (fd_loop K stack pid mountPoint dirname parent dir link
                      fileOpen))
            (HDir dirname :: opened)
    = Some (HDir dirname :: opened).
Proof.
  revert link fileOpen.
  induction dir as [|d_name dir IH]; intros link fileOpen L opened;
    cbn [fd_loop]; rewrite snd_bind; cbn [emit snd app handles on_top handle_eqb];
    rewrite same_path_refl; [reflexivity|].
  destruct fileOpen; [reflexivity|].
  destruct ((strcmp d_name (lit ".") =? 0) || (strcmp d_name (lit "..") =? 0));
    [now apply IH|].
  rewrite snd_bind, handles_app, ReadSymLink_tidy by assumption.
  destruct (ReadSymLink_run K (parent ++ cstr d_name) link L) as (_ & Len & _).
  destruct (ReadSymLink K (parent ++ cstr d_name) link) as [[islink link'] t].
  cbn [fst snd] in *.
  destruct (islink && PathMatchesMountPoint link' mountPoint);
    [|apply IH; lia].
  rewrite snd_bind, handles_app, GetProcessName_tidy.
  rewrite snd_bind. cbn [emit snd app handles]. apply IH. lia.
Qed.

Lemma CheckFileDescriptorSymLinks_tidy K stack pid mountPoint :
  tidy K (snd (CheckFileDescriptorSymLinks K stack pid mountPoint)).
Proof.
  intros opened. unfold CheckFileDescriptorSymLinks, opendir. fold (fd_dir pid).
  rewrite cstr_fd_dir, !snd_bind, !fst_bind. cbn [emit ret fst snd app handles].
  destruct (k_opendir K (fd_dir pid)) as [dir|]; [|reflexivity].
  rewrite !snd_bind, handles_app, fd_loop_handles
    by (rewrite length_char_array; lia).
  cbn [emit ret fst snd app handles on_top handle_eqb tl].
  now rewrite same_path_refl.
Qed.

Lemma maps_loop_handles K stack fuel pid mountPoint filename file mapOpen :
  forall opened,
    handles K (snd (maps_loop K stack fuel pid mountPoint filename file mapOpen))
            (HFile filename :: opened)
    = Some (HFile filename :: opened).
Proof.
  revert file mapOpen.
  induction fuel as [|fuel IH]; intros file mapOpen opened; cbn [maps_loop];
    [reflexivity|].
  destruct mapOpen; [reflexivity|].
  unfold fgets. rewrite !snd_bind, !fst_bind.
  cbn [emit ret fst snd app handles on_top handle_eqb]. rewrite same_path_refl.
  destruct (read_fgets (PATH_MAX + 100) file) as [[buffer file']|]; [|reflexivity].
  destruct (strchr buffer slash) as [path|]; [|apply IH].
  destruct (PathMatchesMountPoint path mountPoint); [|apply IH].
  rewrite snd_bind, handles_app, GetProcessName_tidy.
  rewrite snd_bind. cbn [emit snd app handles]. apply IH.
Qed.

Lemma CheckFileMaps_tidy K stack pid mountPoint :
  tidy K (snd (CheckFileMaps K stack pid mountPoint)).
Proof.
  intros opened. unfold CheckFileMaps, fopen. fold (maps pid).
  rewrite cstr_maps, !snd_bind, !fst_bind. cbn [emit ret fst snd app handles].
  destruct (k_fopen K (maps pid)) as [file|]; [|reflexivity].
  rewrite !snd_bind, handles_app, maps_loop_handles.
  cbn [emit ret fst snd app handles on_top handle_eqb tl].
  now rewrite same_path_refl.
Qed.

Lemma CheckSymLink_tidy K stack pid mountPoint name message :
  tidy K (snd (CheckSymLink K stack pid mountPoint name message)).
Proof.
  unfold CheckSymLink. apply tidy_bind.
  - apply ReadSymLink_tidy. rewrite length_char_array. lia.
  - destruct (fst (ReadSymLink K _ _)) as [islink link].
    destruct (islink && PathMatchesMountPoint link mountPoint);
      [|apply tidy_nil].
    apply tidy_bind; [apply GetProcessName_tidy|].
    apply log_tidy, tidy_nil.
Qed.

Lemma orelse_tidy K (a b : IO bool) :
  tidy K (snd a) -> tidy K (snd b) -> tidy K (snd (a ||| b)).
Proof.
  intros Ha Hb. rewrite snd_orelse. apply tidy_app; [exact Ha|].
  destruct (fst a); [apply tidy_nil | exact Hb].
Qed.

Lemma holds_tidy K stack pid mountPoint :
  tidy K (snd (holds K stack pid mountPoint)).
Proof.
  unfold holds.
  repeat apply orelse_tidy;
    auto using CheckFileDescriptorSymLinks_tidy, CheckFileMaps_tidy,
               CheckSymLink_tidy.
Qed.

Lemma act_tidy K action pid : tidy K (snd (act action pid)).
Proof.
  intros opened. unfold act. destruct (action =? 1); [reflexivity|].
  destruct (action =? 2); reflexivity.
Qed.

Lemma scan_entry_tidy K stack mountPoint action d_name :
  tidy K (snd (scan_entry K stack mountPoint action d_name)).
Proof.
  unfold scan_entry. destruct (get_pid d_name =? -1); [apply tidy_nil|].
  apply tidy_bind; [apply holds_tidy|].
  destruct (fst (holds _ _ _ _)); [apply act_tidy | apply tidy_nil].
Qed.

Lemma proc_loop_handles K stack mountPoint action dir opened :
  handles K (snd (proc_loop K stack mountPoint action dir))
          (HDir (lit "/proc") :: opened)
  = Some (HDir (lit "/proc") :: opened).
Proof.
  induction dir as [|d_name dir IH]; cbn [proc_loop]; rewrite snd_bind;
    cbn [emit snd app handles on_top handle_eqb]; rewrite same_path_refl;
    [reflexivity|].
  now rewrite snd_bind, handles_app, scan_entry_tidy.
Qed.

(** X12.  Nothing is left open, and nothing is used after it is closed.
    Followed through the whole run, every [readdir], [fgets] and [read] is
    on the handle opened last and still open, every [closedir], [fclose]
    and [close] closes that handle, and at the end no handle is open;
    each probe on its own leaves the handles as it found them. *)
Theorem handles_closed K stack mountPoint action :
  handles K (snd (KillProcessesWithOpenFiles K stack mountPoint action)) []
  = Some []
  /\ forall pid opened,
       Forall (fun p : IO bool => handles K (snd p) opened = Some opened)
              (probes K stack pid mountPoint).
Proof.
  split.
  - unfold KillProcessesWithOpenFiles, opendir.
    rewrite !snd_bind, !fst_bind. cbn [emit ret fst snd app handles].
    change (cstr (lit "/proc")) with (lit "/proc").
    destruct (k_opendir K (lit "/proc")) as [dir|]; [|reflexivity].
    rewrite snd_bind, handles_app, proc_loop_handles.
    cbn [emit snd handles on_top handle_eqb tl]. now rewrite same_path_refl.
  - intros pid opened. unfold probes.
    repeat constructor;
      first [ apply CheckFileDescriptorSymLinks_tidy
            | apply CheckFileMaps_tidy
            | apply CheckSymLink_tidy ].
Qed.

(** The follower tells runs apart: a directory left open is reported, a
    [readdir] after [closedir] is refused. *)
Example handles_tell_apart :
  handles vanishing [EvOpendir (lit "/proc"); EvReaddir (lit "/proc")] []
  = Some [HDir (lit "/proc")]
  /\ handles vanishing
       [EvOpendir (lit "/proc"); EvClosedir (lit "/proc");
        EvReaddir (lit "/proc")] []
     = None.
Proof. split; reflexivity. Qed.

(** * Uninitialised arrays *)

Section AnyStack.

Variable K : Kernel.
Variables stack1 stack2 : list ascii.
Variable pid : Z.
Variable mountPoint : cstring.
Hypothesis Fits : Z.of_nat (strlen mountPoint) <= INT_MAX.

Lemma fd_loop_any_stack dirname parent dir link1 link2 :
  (Z.to_nat PATH_MAX <= List.length link1)%nat ->
  (Z.to_nat PATH_MAX <= List.length link2)%nat ->
  fd_loop K stack1 pid mountPoint dirname parent dir link1 false
  = fd_loop K stack2 pid mountPoint dirname parent dir link2 false.
Proof.
  revert link1 link2.
  induction dir as [|d_name dir IH]; intros link1 link2 L1 L2; [reflexivity|].
  destruct (fd_loop_cons K stack1 pid mountPoint dirname parent d_name dir
              link1 L1 Fits) as (l1 & Len1 & ->).
  destruct (fd_loop_cons K stack2 pid mountPoint dirname parent d_name dir
              link2 L2 Fits) as (l2 & Len2 & ->).
  now rewrite (IH l1 l2) by lia.
Qed.

Lemma maps_loop_any_stack fuel filename file mapOpen :
  maps_loop K stack1 fuel pid mountPoint filename file mapOpen
  = maps_loop K stack2 fuel pid mountPoint filename file mapOpen.
Proof.
  revert file mapOpen.
  induction fuel as [|fuel IH]; intros file mapOpen; [reflexivity|].
  destruct mapOpen; [reflexivity|].
  rewrite !maps_loop_cons.
  destruct (read_fgets (PATH_MAX + 100) file) as [[buffer file']|]; [|reflexivity].
  now rewrite IH.
Qed.

Lemma holds_any_stack :
  holds K stack1 pid mountPoint = holds K stack2 pid mountPoint.
Proof.
  unfold holds. rewrite !CheckSymLink_run by exact Fits.
  do 3 f_equal. f_equal.
  - unfold CheckFileDescriptorSymLinks.
    destruct (opendir K _) as [[dir|] t]; rewrite !bind_eq; cbn [fst snd];
      [|reflexivity].
    rewrite !bind_eq.
    now rewrite (fd_loop_any_stack _ _ dir (char_array stack1 PATH_MAX)
                   (char_array stack2 PATH_MAX))
      by (rewrite length_char_array; lia).
  - unfold CheckFileMaps.
    destruct (fopen K _) as [[file|] t]; rewrite !bind_eq; cbn [fst snd];
      [|reflexivity].
    now rewrite !bind_eq, maps_loop_any_stack.
Qed.

End AnyStack.

Lemma proc_loop_any_stack K stack1 stack2 mountPoint action dir :
  Z.of_nat (strlen mountPoint) <= INT_MAX ->
  proc_loop K stack1 mountPoint action dir
  = proc_loop K stack2 mountPoint action dir.
Proof.
  intros F. induction dir as [|d_name dir IH]; [reflexivity|].
  cbn [proc_loop]. rewrite IH. unfold scan_entry.
  destruct (get_pid d_name =? -1); [reflexivity|].
  now rewrite (holds_any_stack K stack1 stack2).
Qed.

(** X13.  The uninitialised arrays are never read before they are
    written: two runs that differ only in what the local arrays hold on
    entry are the same run, event for event (for a mount point whose
    length fits an [int]). *)
Theorem run_ignores_uninitialised_arrays K stack1 stack2 mountPoint action :
  Z.of_nat (strlen mountPoint) <= INT_MAX ->
  KillProcessesWithOpenFiles K stack1 mountPoint action
  = KillProcessesWithOpenFiles K stack2 mountPoint action.
Proof.
  intros F. unfold KillProcessesWithOpenFiles. rewrite !bind_eq. cbv beta.
  destruct (fst (opendir K (lit "/proc"))) as [dir|]; [|reflexivity].
  now rewrite (proc_loop_any_stack K stack1 stack2).
Qed.

(** The same run on a clean stack and on a used one. *)
Lemma run_ignores_uninitialised_arrays_witness :
  Z.of_nat (strlen (lit "/mnt/vol")) <= INT_MAX
  /\ KillProcessesWithOpenFiles fd_inside [] (lit "/mnt/vol") 2
     = KillProcessesWithOpenFiles fd_inside (lit "left on the stack")
         (lit "/mnt/vol") 2.
Proof.
  split; [vm_compute; discriminate|].
  apply run_ignores_uninitialised_arrays. vm_compute. discriminate.
Defined.

(** * Probe B: the lines that are read *)

Lemma fgets_calls_app t1 t2 :
  fgets_calls (t1 ++ t2) = (fgets_calls t1 + fgets_calls t2)%nat.
Proof. unfold fgets_calls. now rewrite filter_app, length_app. Qed.

Lemma fgets_calls_name K pid : fgets_calls (name_calls K pid) = 0%nat.
Proof.
  unfold name_calls. destruct (k_open K (cmdline pid)) as [[|data]|]; reflexivity.
Qed.

Lemma maps_loop_fgets K stack fuel pid mountPoint filename file :
  (List.length file < fuel)%nat ->
  fgets_calls (snd (maps_loop K stack fuel pid mountPoint filename file false))
  = (List.length (take_through (line_matches mountPoint)
                    (lines_read fuel (PATH_MAX + 100) file))
     + if existsb (line_matches mountPoint)
            (lines_read fuel (PATH_MAX + 100) file)
       then 0 else 1)%nat.
Proof.
  revert file. induction fuel as [|fuel IH]; intros file L; [lia|].
  rewrite maps_loop_cons. cbn [lines_read].
  destruct (read_fgets (PATH_MAX + 100) file) as [[buffer file']|] eqn:E;
    [|reflexivity].
  pose proof (read_fgets_shorter _ _ _ E) as S'.
  cbn [take_through existsb].
  destruct (line_matches mountPoint buffer); cbn [snd orb].
  - change (fgets_calls (EvFgets filename :: ?t)) with (S (fgets_calls t)).
    rewrite fgets_calls_app, fgets_calls_name. reflexivity.
  - change (fgets_calls (EvFgets filename :: ?t)) with (S (fgets_calls t)).
    rewrite IH by lia. reflexivity.
Qed.

(** X14.  Probe B stops reading at the first match: when the maps file
    opens, [fgets] is called once for each line up to and including the
    first that matches, and, when none matches, once more for the end of
    the file. *)
Theorem CheckFileMaps_stops K stack pid mountPoint file :
  k_fopen K (maps pid) = Some file ->
  fgets_calls (snd (CheckFileMaps K stack pid mountPoint))
  = (List.length (take_through (line_matches mountPoint) (fgets_lines file))
     + if existsb (line_matches mountPoint) (fgets_lines file)
       then 0 else 1)%nat.
Proof.
  intros H. unfold CheckFileMaps, fopen. fold (maps pid).
  rewrite cstr_maps, !snd_bind, !fst_bind. cbn [emit ret fst snd]. rewrite H.
  rewrite !snd_bind. cbn [emit ret fst snd app].
  change (fgets_calls (EvFopen ?p :: ?t)) with (fgets_calls t).
  rewrite fgets_calls_app, maps_loop_fgets, lines_read_enough by lia.
  cbn. lia.
Qed.

(** One line that matches "/mnt": one call. *)
Lemma CheckFileMaps_stops_witness :
  k_fopen mapped_mount_point (maps 1) = Some maps_line
  /\ fgets_calls (snd (CheckFileMaps mapped_mount_point [] 1 (lit "/mnt")))
     = (List.length (take_through (line_matches (lit "/mnt"))
                       (fgets_lines maps_line))
        + if existsb (line_matches (lit "/mnt")) (fgets_lines maps_line)
          then 0 else 1)%nat.
Proof.
  split; [reflexivity|].
  apply CheckFileMaps_stops. reflexivity.
Defined.
